(** * Sparse_Splats: view selection and subset assembly

    A shallow embedding of [scripts/01_subset_views.py]: the name
    normalisation, the view selector [_choose_views], the asset copier
    [_copy_images] and the subset assembler [create_view_subset], followed by
    the properties stated about them.  The calls made by the command line
    and by [_run_single_config] of [scripts/04_run_experiment.py] follow,
    with the pure helpers of [scripts/02_train.py] and
    [scripts/03_evaluate.py]: [_flatten_cli_args], [_extract_iteration],
    [_normalize_iterations], [_rows_from_results] and [_append_metrics_csv].

    Modelling conventions.
    - Python [int] is [Z]; [Optional[T]] is [option T]; a Python truth test
      on an optional list ([if names:]) is [truthy_list].
    - Exceptions are values of [exn]; a call that may raise returns
      [result A].  Operations on the subset directory thread the directory
      through ([fs_op]); an exception leaves it as it is at that point.
    - A manifest is the dictionary [json.load] returns, keys in document
      order; values other than the frame list are opaque.  The raw dataset
      directory and the subset directory are distinct trees, and file paths
      are relative.
    - [pathlib.Path] is the POSIX flavour; [Path.stem] follows the rule of
      CPython 3.4 to 3.13 (the last dot splits the name when it is neither
      the first nor the last character).
    - Python [float] is IEEE binary64 with round-to-nearest-even, modelled in
      [Binary64] for the finite non-negative values the selector computes and
      compared with the kernel's binary64 numbers on small catalogs.  The
      stride of the uniform branch is not the exact quotient: for thirty
      frames and a count of twenty-two, [int(11 * (30 / 22))] is 14.
    - A character of a [string] is a code below 256.  [sorted] on strings
      is the lexicographic order of the codes; [str] of an integer is its
      decimal text.
    - The metrics table is the list of the lines written to it, each line
      the list of its values before [csv] formats them; its parent directory
      can be created and the file opened.
    - [random.Random(seed).sample] belongs to the Python library: it is a
      parameter ([sample_positions]) of the section that defines the
      selector.  A missing seed makes CPython seed from the operating system;
      that source is the explicit argument [entropy]. *)

From Stdlib Require Import List String Ascii ZArith Lia Bool Arith Sorted.
From Stdlib Require Import Permutation.
From Stdlib Require PrimFloat Uint63 FloatOps SpecFloat.
From Stdlib Require DecimalString DecimalZ.
Import ListNotations.

Local Open Scope string_scope.
Local Open Scope list_scope.
Local Open Scope Z_scope.

(** ** Exceptions and results *)

Inductive exn : Type :=
| FileNotFoundError
| KeyError
| ValueError
| ZeroDivisionError
| IndexError
| TypeError
| JSONDecodeError.

Inductive result (A : Type) : Type :=
| Ok (a : A)
| Raise (e : exn).

Arguments Ok {A} a.
Arguments Raise {A} e.

Definition is_ok {A : Type} (r : result A) : bool :=
  match r with Ok _ => true | Raise _ => false end.

(** ** Strings and paths *)

Definition slash : ascii := "/"%char.
Definition dot : ascii := "."%char.

(** [file_path.replace] of dot-slash by the empty string: every
    non-overlapping occurrence of the two characters is removed, scanning
    from the left. *)
Fixpoint remove_dot_slash (s : string) : string :=
  match s with
  | EmptyString => EmptyString
  | String c rest =>
      match rest with
      | String c' rest' =>
          if (Ascii.eqb c dot && Ascii.eqb c' slash)%bool
          then remove_dot_slash rest'
          else String c (remove_dot_slash rest)
      | EmptyString => String c EmptyString
      end
  end.

(** [s.split("/")], the current component being accumulated in [cur]. *)
Fixpoint split_slash_aux (cur : string) (s : string) : list string :=
  match s with
  | EmptyString => [cur]
  | String c rest =>
      if Ascii.eqb c slash
      then cur :: split_slash_aux EmptyString rest
      else split_slash_aux (cur ++ String c EmptyString)%string rest
  end.

Definition split_slash (s : string) : list string :=
  split_slash_aux EmptyString s.

(** The components pathlib keeps: empty ones and ["."] are dropped. *)
Definition path_parts (s : string) : list string :=
  filter (fun x => negb (String.eqb x EmptyString || String.eqb x ".")%bool)
         (split_slash s).

(** [Path(s).name]: the last component, or the empty string. *)
Definition path_name (s : string) : string :=
  last (path_parts s) EmptyString.

(** [c in s]. *)
Fixpoint contains (c : ascii) (s : string) : bool :=
  match s with
  | EmptyString => false
  | String c' rest => Ascii.eqb c' c || contains c rest
  end.

(** [name.rfind(".")], as an offset from the start; [None] for -1. *)
Fixpoint rfind_dot (s : string) : option nat :=
  match s with
  | EmptyString => None
  | String c rest =>
      match rfind_dot rest with
      | Some i => Some (S i)
      | None => if Ascii.eqb c dot then Some O else None
      end
  end.

(** [PurePath.stem] applied to a name. *)
Definition stem_of_name (name : string) : string :=
  match rfind_dot name with
  | Some i =>
      if (Nat.ltb 0 i && Nat.ltb i (String.length name - 1))%bool
      then substring 0 i name
      else name
  | None => name
  end.

(** [Path(s).stem]. *)
Definition path_stem (s : string) : string :=
  stem_of_name (path_name s).

(** [_normalize_frame_name]. *)
Definition _normalize_frame_name (file_path : string) : string :=
  path_stem (remove_dot_slash file_path).

(** ** Insertion-ordered de-duplication *)

Definition mem_str (x : string) (l : list string) : bool :=
  existsb (String.eqb x) l.

(** [list(dict.fromkeys(xs))]: keys are inserted in order; inserting a key
    that is already present leaves the dictionary as it is. *)
Definition dict_fromkeys (xs : list string) : list string :=
  fold_left (fun keys x => if mem_str x keys then keys else keys ++ [x])
            xs [].

(** ** IEEE binary64 arithmetic on finite non-negative values

    A finite non-negative double is [mant * 2 ^ expo] with [mant < 2 ^ 53].
    [round p q] is the double nearest to the positive rational [p / q], ties
    going to the even mantissa; it is what CPython computes for the true
    division of two integers ([div]), for the conversion of an integer
    ([of_int]) and, applied to the exact product, for a multiplication
    ([mul]).  The exponent range of the format is not modelled: every value
    met here lies between [2 ^ -1022] and [2 ^ 1023], where no overflow or
    gradual underflow occurs. *)
Module Binary64.

Record t : Type := mk { mant : Z; expo : Z }.

Definition zero : t := mk 0 0.

(** The integer nearest to [num / den], ties to even ([den > 0]). *)
Definition round_half_even (num den : Z) : Z :=
  let q := num / den in
  let r := num mod den in
  if 2 * r <? den then q
  else if den <? 2 * r then q + 1
  else if Z.even q then q else q + 1.

(** The exponent [e] with [2 ^ 52 <= (p / q) / 2 ^ e < 2 ^ 53]. *)
Definition scale_exp (p q : Z) : Z :=
  let d := Z.log2 p - Z.log2 q in
  if p * 2 ^ Z.max 0 (- d) <? q * 2 ^ Z.max 0 d then d - 53 else d - 52.

Definition round (p q : Z) : t :=
  if p <=? 0 then zero
  else
    let e := scale_exp p q in
    mk (round_half_even (p * 2 ^ Z.max 0 (- e)) (q * 2 ^ Z.max 0 e)) e.

(** [float(z)] for an integer [z >= 0]. *)
Definition of_int (z : Z) : t := round z 1.

(** [n / k] on integers, [n >= 0] and [k > 0]. *)
Definition div (n k : Z) : t := round n k.

(** [x * y]. *)
Definition mul (x y : t) : t :=
  let e := expo x + expo y in
  round (mant x * mant y * 2 ^ Z.max 0 e) (2 ^ Z.max 0 (- e)).

(** [int(x)]: truncation, which is the floor of a non-negative value. *)
Definition trunc (x : t) : Z :=
  if 0 <=? expo x then mant x * 2 ^ expo x
  else mant x / 2 ^ (- expo x).

(** The value scaled by [2 ^ 52]; an integer whenever [expo x >= -52],
    that is for zero and for every double not below one. *)
Definition scaled52 (x : t) : Z := mant x * 2 ^ (expo x + 52).

End Binary64.

(** The rationals [p / q] between one and [2 ^ 53]. *)
Definition in_unit_range (p q : Z) : Prop := 0 < q /\ q <= p /\ p < 2 ^ 53 * q.

(** A double whose exponent lies between -52 and 0: zero, or a value between
    one and [2 ^ 53]. *)
Definition unit_expo (x : Binary64.t) : Prop :=
  -52 <= Binary64.expo x <= 0 /\ 0 <= Binary64.mant x.

(** The same target computed with the kernel's binary64 numbers, to compare
    the model with: [i], [n] and [k] are converted exactly (they are below
    [2 ^ 53]), divided and multiplied in hardware arithmetic, and the result
    is truncated. *)
Definition kernel_float (z : Z) : PrimFloat.float :=
  PrimFloat.of_uint63 (Uint63.of_Z z).

Definition kernel_target (n k i : Z) : Z :=
  match FloatOps.Prim2SF
          (PrimFloat.mul (kernel_float i)
                         (PrimFloat.div (kernel_float n) (kernel_float k)))
  with
  | SpecFloat.S754_finite false m e =>
      if 0 <=? e then Z.pos m * 2 ^ e else Z.pos m / 2 ^ (- e)
  | _ => 0
  end.

(** Every catalog size below [size], every count below it and every
    multiplier below the count. *)
Definition all_targets_below (size : nat) (check : Z -> Z -> Z -> bool)
  : bool :=
  forallb
    (fun n =>
       forallb
         (fun k =>
            forallb (fun i => check (Z.of_nat n) (Z.of_nat k) (Z.of_nat i))
                    (seq 0 k))
         (seq 1 (n - 1)))
    (seq 0 size).

(** ** Documents and frames *)

(** A JSON value this program only carries through, kept as its text. *)
Inductive json : Type :=
| Opaque (text : string).

(** A frame record: its [file_path] and every other key of the object. *)
Record frame : Type := mkFrame {
  file_path : string;
  payload : list (string * json)
}.

(** ** Python list primitives *)

(** [range(k)]. *)
Definition range (k : Z) : list Z := map Z.of_nat (seq 0 (Z.to_nat k)).

(** [l[i]]: a negative index counts from the end, an index outside the list
    raises [IndexError]. *)
Definition getitem (l : list string) (i : Z) : result string :=
  let n := Z.of_nat (List.length l) in
  if (0 <=? i) && (i <? n) then Ok (nth (Z.to_nat i) l EmptyString)
  else if (- n <=? i) && (i <? 0) then Ok (nth (Z.to_nat (n + i)) l EmptyString)
  else Raise IndexError.

Definition mem_Z (x : Z) (l : list Z) : bool := existsb (Z.eqb x) l.

(** Truth value of an optional list: [None] and the empty list are false. *)
Definition truthy_list {A : Type} (o : option (list A)) : bool :=
  match o with
  | Some (_ :: _) => true
  | _ => false
  end.

Definition list_or_empty {A : Type} (o : option (list A)) : list A :=
  match o with
  | Some l => l
  | None => []
  end.

(** ** Reference functions used in the statements *)

(** First occurrences only, in the order of the list: the head stays and
    its later copies go. *)
Fixpoint keep_first (xs : list string) : list string :=
  match xs with
  | [] => []
  | x :: rest => x :: filter (fun y => negb (String.eqb y x)) (keep_first rest)
  end.

(** The normalised names of a catalog, in catalog order. *)
Definition catalog_names (frames : list frame) : list string :=
  map (fun f => _normalize_frame_name (file_path f)) frames.

(** An index the [indices] branch accepts for a catalog of [n] names. *)
Definition valid_position (n : nat) (idx : Z) : bool :=
  (0 <=? idx) && (idx <? Z.of_nat n).

(** ** The view selector *)

(** The [names] branch: each given name becomes [Path(raw).stem]. *)
Definition select_by_names (names : list string) : list string :=
  dict_fromkeys
    (fold_left (fun normalized raw => normalized ++ [path_stem raw]) names []).

(** The [indices] branch: an index is used only when
    [0 <= idx < len(frame_names)]. *)
Definition select_by_indices (frame_names : list string) (indices : list Z)
  : list string :=
  dict_fromkeys
    (fold_left
       (fun selected idx =>
          if (0 <=? idx) && (idx <? Z.of_nat (List.length frame_names))
          then selected ++ [nth (Z.to_nat idx) frame_names EmptyString]
          else selected)
       indices []).

(** [int(i * step)] with [step = n / k], for [n = len(frame_names)] and
    [k = view_count]. *)
Definition target (n k i : Z) : Z :=
  Binary64.trunc (Binary64.mul (Binary64.of_int i) (Binary64.div n k)).

(** The targets of the uniform branch:
    [min(int(i * step), len(frame_names) - 1) for i in range(view_count)]. *)
Definition selected_indices (n view_count : Z) : list Z :=
  map (fun i => Z.min (target n view_count i) (n - 1)) (range view_count).

(** State of the loop over the targets.  [collided] is a ghost flag: it
    records whether the test [idx in seen] ever succeeded. *)
Record loop_state : Type := mkLoop {
  seen : list Z;
  selected : list string;
  collided : bool
}.

Definition loop_init : loop_state := mkLoop [] [] false.

Fixpoint uniform_loop (frame_names : list string) (targets : list Z)
         (st : loop_state) : result loop_state :=
  match targets with
  | [] => Ok st
  | idx :: rest =>
      let hit := mem_Z idx (seen st) in
      let idx' :=
        if hit then Z.min (idx + 1) (Z.of_nat (List.length frame_names) - 1)
        else idx in
      match getitem frame_names idx' with
      | Ok name =>
          uniform_loop frame_names rest
            (mkLoop (idx' :: seen st) (selected st ++ [name])
                    (collided st || hit))
      | Raise e => Raise e
      end
  end.

Section Selector.

(** [random.Random(s).sample(population, k)] picks [k] positions of the
    population; which ones depends on the seed, on the population's length
    and on [k] only. *)
Variable sample_positions : Z -> nat -> nat -> list nat.

(** [random.Random(seed)]: an integer seed fixes the generator, a missing
    one makes it read the operating system's entropy. *)
Definition generator_seed (seed : option Z) (entropy : Z) : Z :=
  match seed with
  | Some s => s
  | None => entropy
  end.

(** [rnd.sample(population, k)]; it raises [ValueError] unless
    [0 <= k <= len(population)]. *)
Definition sample (state : Z) (population : list string) (k : Z)
  : result (list string) :=
  if (0 <=? k) && (k <=? Z.of_nat (List.length population))
  then Ok (map (fun j => nth j population EmptyString)
               (sample_positions state (List.length population) (Z.to_nat k)))
  else Raise ValueError.

(** The uniform branch of the selector, from the computation of [step] on.
    The division raises for a count of zero; for a negative count the stride
    is computed and never used, [range(view_count)] being empty. *)
Definition uniform_select (frame_names : list string) (view_count : Z)
  : result loop_state :=
  if view_count =? 0 then Raise ZeroDivisionError
  else
    uniform_loop frame_names
      (selected_indices (Z.of_nat (List.length frame_names)) view_count)
      loop_init.

Definition _choose_views (frames : list frame) (view_count : option Z)
           (indices : option (list Z)) (names : option (list string))
           (strategy : string) (seed : option Z) (entropy : Z)
  : result (list string) :=
  let frame_names := catalog_names frames in
  if truthy_list names then Ok (select_by_names (list_or_empty names))
  else if truthy_list indices
  then Ok (select_by_indices frame_names (list_or_empty indices))
  else
    match view_count with
    | None => Ok frame_names
    | Some k =>
        if Z.of_nat (List.length frame_names) <=? k then Ok frame_names
        else if String.eqb strategy "random"
        then sample (generator_seed seed entropy) frame_names
                    (Z.min k (Z.of_nat (List.length frame_names)))
        else
          match uniform_select frame_names k with
          | Ok st => Ok (selected st)
          | Raise e => Raise e
          end
    end.

End Selector.

(** The names at a list of positions of the catalog. *)
Definition names_at (frame_names : list string) (positions : list Z)
  : list string :=
  map (fun t => nth (Z.to_nat t) frame_names EmptyString) positions.

(** The call takes the uniform branch: no usable names or indices, a count
    below the catalog size and a strategy other than ["random"]. *)
Definition takes_uniform_branch (frames : list frame) (view_count : option Z)
           (indices : option (list Z)) (names : option (list string))
           (strategy : string) : bool :=
  negb (truthy_list names) && negb (truthy_list indices)
  && match view_count with
     | None => false
     | Some k =>
         negb (Z.of_nat (List.length frames) <=? k)
         && negb (String.eqb strategy "random")
     end.

(** The collision resolution under-fills the selection of a catalog for a
    count: the call takes the uniform branch, the test [idx in seen] succeeds
    at least once, and fewer than [view_count] distinct names come back. *)
Definition collision_underfills (frames : list frame) (view_count : Z) : Prop :=
  takes_uniform_branch frames (Some view_count) None None "uniform" = true
  /\ exists st,
      uniform_select (catalog_names frames) view_count = Ok st
      /\ collided st = true
      /\ Z.of_nat (List.length (keep_first (selected st))) < view_count.

(** [random.sample] draws distinct positions of the population. *)
Definition sampler_ok (sample_positions : Z -> nat -> nat -> list nat) : Prop :=
  forall state n k,
    (k <= n)%nat ->
    NoDup (sample_positions state n k)
    /\ Forall (fun j => (j < n)%nat) (sample_positions state n k).


(** ** Manifests and directories *)

(** A value of a manifest's top-level object: the frame list, or anything
    else, which is opaque. *)
Inductive value : Type :=
| VFrames (fs : list frame)
| VOther (v : json).

(** A loaded manifest: the keys of the JSON object in document order. *)
Definition manifest : Type := list (string * value).

Section Dict.

Context {V : Type}.

(** [d.get(key)]. *)
Fixpoint dict_get (d : list (string * V)) (key : string) : option V :=
  match d with
  | [] => None
  | (k, v) :: rest => if String.eqb k key then Some v else dict_get rest key
  end.

(** [d[key] = v]: an existing key keeps its place, a new one goes last. *)
Fixpoint dict_set (d : list (string * V)) (key : string) (v : V)
  : list (string * V) :=
  match d with
  | [] => [(key, v)]
  | (k, w) :: rest =>
      if String.eqb k key then (k, v) :: rest
      else (k, w) :: dict_set rest key v
  end.

End Dict.

(** A file is a JSON document holding an object, or other data. *)
Inductive file : Type :=
| JsonFile (data : manifest)
| DataFile (bytes : string).

(** A directory tree, flattened: the files below it by relative path.  The
    raw dataset directory and the subset directory are distinct trees, neither
    inside the other. *)
Definition dir : Type := list (string * file).

(** Operations on the subset directory: the tree is threaded through, and an
    exception stops the sequence with the tree as it is at that point. *)
Definition fs_op (A : Type) : Type := dir -> dir * result A.

Definition ret {A : Type} (a : A) : fs_op A := fun d => (d, Ok a).

Definition throw {A : Type} (e : exn) : fs_op A := fun d => (d, Raise e).

Definition bind {A B : Type} (m : fs_op A) (f : A -> fs_op B) : fs_op B :=
  fun d =>
    match m d with
    | (d', Ok a) => f a d'
    | (d', Raise e) => (d', Raise e)
    end.

Notation "x <- m ;; k" := (bind m (fun x => k))
  (at level 61, m at next level, right associativity).

Definition lift {A : Type} (r : result A) : fs_op A := fun d => (d, r).

(** [_load_json(raw_data_dir / name)]. *)
Definition _load_json (raw : dir) (name : string) : result manifest :=
  match dict_get raw name with
  | None => Raise FileNotFoundError
  | Some (JsonFile data) => Ok data
  | Some (DataFile _) => Raise JSONDecodeError
  end.

(** [_write_json(subset_dir / name, data)]. *)
Definition _write_json (name : string) (data : manifest) : fs_op unit :=
  fun d => (dict_set d name (JsonFile data), Ok tt).

(** [data["frames"]], read as a list of frames. *)
Definition get_frames (data : manifest) : result (list frame) :=
  match dict_get data "frames" with
  | None => Raise KeyError
  | Some (VFrames fs) => Ok fs
  | Some (VOther _) => Raise TypeError
  end.

(** ** The asset copier *)

(** [Path(p).with_suffix(extension)] as a relative path, components joined by
    a slash.  It raises [ValueError] for an extension that holds a slash, that
    is a lone dot or that is not empty and does not start with a dot, and for
    a path with no name. *)
Definition valid_suffix (extension : string) : bool :=
  negb (contains slash extension)
  && match extension with
     | EmptyString => true
     | String c rest => Ascii.eqb c dot && negb (String.eqb rest EmptyString)
     end.

Definition join_parts (parts : list string) : string :=
  String.concat "/" parts.

Definition with_suffix (p : string) (extension : string) : result string :=
  if negb (valid_suffix extension) then Raise ValueError
  else
    match rev (path_parts p) with
    | [] => Raise ValueError
    | name :: parents =>
        Ok (join_parts
              (rev parents ++ [(stem_of_name name ++ extension)%string]))
    end.

(** One turn of the loop of [_copy_images]; [copied] is the set of
    destinations written so far. *)
Definition copy_one (raw : dir) (extension : string) (copied : list string)
           (fr : frame) : fs_op (list string) :=
  rel <- lift (with_suffix (remove_dot_slash (file_path fr)) extension) ;;
  if mem_str rel copied then ret copied
  else
    match dict_get raw rel with
    | None => throw FileNotFoundError
    | Some content =>
        fun d => (dict_set d rel content, Ok (rel :: copied))
    end.

Fixpoint copy_loop (raw : dir) (extension : string) (frames : list frame)
         (copied : list string) : fs_op unit :=
  match frames with
  | [] => ret tt
  | fr :: rest =>
      copied' <- copy_one raw extension copied fr ;;
      copy_loop raw extension rest copied'
  end.

Definition _copy_images (frames : list frame) (raw : dir) (extension : string)
  : fs_op unit :=
  copy_loop raw extension frames [].

(** ** The subset assembler *)

(** The [selection] dictionary.  A field is [None] when its key is absent or
    holds [None]; [dict.get] does not tell the two apart, except for
    [strategy], whose default applies to an absent key only. *)
Record selection : Type := mkSelection {
  sel_indices : option (list Z);
  sel_names : option (list string);
  sel_strategy : option string;
  sel_seed : option Z;
  sel_view_count : option Z
}.

Definition no_selection : selection := mkSelection None None None None None.

(** The dictionary [create_view_subset] returns. *)
Record summary : Type := mkSummary {
  view_count_out : Z;
  selected_views : list string;
  strategy_out : string;
  selection_indices : option (list Z);
  selection_names : option (list string);
  files : list (string * Z)
}.

(** [view_count or selection.get("view_count")]: a count that is [None] or
    zero is false and gives way to the right operand. *)
Definition effective_view_count (view_count : option Z) (sel : selection)
  : option Z :=
  match view_count with
  | Some k => if k =? 0 then sel_view_count sel else Some k
  | None => sel_view_count sel
  end.

Definition train_name : string := "transforms_train.json".

Definition held_out_names : list string :=
  ["transforms_val.json"; "transforms_test.json"].

(** [transform_files]: the training manifest, then each held-out manifest
    that exists. *)
Definition transform_files (raw : dir) : list string :=
  train_name
    :: filter (fun name => match dict_get raw name with
                           | Some _ => true
                           | None => false
                           end)
              held_out_names.

(** The frames kept of one manifest. *)
Definition retained_frames (full_test_set : bool) (selected_set : list string)
           (name : string) (frames : list frame) : list frame :=
  let is_train := String.eqb name train_name in
  let use_full := full_test_set && negb is_train in
  if use_full then frames
  else filter (fun fr => mem_str (_normalize_frame_name (file_path fr))
                                 selected_set)
              frames.

(** What the loop over [transform_files] accumulates. *)
Record assembly : Type := mkAssembly {
  counts : list (string * Z);
  frames_to_copy : list frame
}.

(** One turn of the loop over [transform_files]. *)
Definition assemble_one (raw : dir) (full_test_set : bool)
           (selected_set : list string) (acc : assembly) (name : string)
  : fs_op assembly :=
  data <- lift (_load_json raw name) ;;
  all_frames <- lift (get_frames data) ;;
  let frames := retained_frames full_test_set selected_set name all_frames in
  let data' := dict_set data "frames" (VFrames frames) in
  _ <- _write_json name data' ;;
  ret (mkAssembly (dict_set (counts acc) name (Z.of_nat (List.length frames)))
                  (frames_to_copy acc ++ frames)).

Fixpoint assemble_loop (raw : dir) (full_test_set : bool)
         (selected_set : list string) (names : list string) (acc : assembly)
  : fs_op assembly :=
  match names with
  | [] => ret acc
  | name :: rest =>
      acc' <- assemble_one raw full_test_set selected_set acc name ;;
      assemble_loop raw full_test_set selected_set rest acc'
  end.

(** [selection or {}]. *)
Definition selection_or_default (sel : option selection) : selection :=
  match sel with
  | Some s => s
  | None => no_selection
  end.

(** [selection.get("strategy", "uniform")]. *)
Definition strategy_or_default (sel : selection) : string :=
  match sel_strategy sel with
  | Some s => s
  | None => "uniform"
  end.

Section Assembler.

Variable sample_positions : Z -> nat -> nat -> list nat.

(** The body of [create_view_subset] after the subset directory has been
    emptied. *)
Definition build_subset (raw : dir) (view_count : option Z)
           (sel : option selection) (extension : string)
           (full_test_set : bool) (entropy : Z) : fs_op summary :=
  let selection := selection_or_default sel in
let indices := sel_indices selection in
let names := sel_names selection in
let strategy := strategy_or_default selection in
let seed := sel_seed selection in
  let view_count := effective_view_count view_count selection in
  match dict_get raw train_name with
  | None => throw FileNotFoundError
  | Some _ =>
      train <- lift (_load_json raw train_name) ;;
      base_frames <- lift (get_frames train) ;;
      selected_views <-
        lift (_choose_views sample_positions base_frames view_count indices
                            names strategy seed entropy) ;;
      acc <- assemble_loop raw full_test_set selected_views
                           (transform_files raw) (mkAssembly [] []) ;;
      _ <- _copy_images (frames_to_copy acc) raw extension ;;
      ret (mkSummary (Z.of_nat (List.length selected_views)) selected_views
                     strategy indices names (counts acc))
  end.

(** [create_view_subset].  [before] is the subset directory as the call
    finds it, [None] when it does not exist.  The result is the subset
    directory as the call leaves it, with what the call returns or raises.
    The first three statements remove an existing directory and create an
    empty one. *)
Definition create_view_subset (raw : dir) (before : option dir)
           (view_count : option Z) (sel : option selection)
           (extension : string) (full_test_set : bool) (entropy : Z)
  : dir * result summary :=
  let emptied : dir :=
    match before with
    | Some _ => []
    | None => []
    end in
  build_subset raw view_count sel extension full_test_set entropy emptied.

(** The call of the selector that [create_view_subset] makes. *)
Definition selector_call (base_frames : list frame) (view_count : option Z)
           (sel : option selection) (entropy : Z) : result (list string) :=
  let selection := selection_or_default sel in
  _choose_views sample_positions base_frames
                (effective_view_count view_count selection)
                (sel_indices selection) (sel_names selection)
                (strategy_or_default selection) (sel_seed selection) entropy.

End Assembler.

(** ** Properties of one file of the subset directory

    [S] is a property of what is found under [path] in the subset directory,
    [None] when there is no file. *)



(** ** A worked dataset *)

(** A sampler for the examples: the first [k] positions. *)
Definition first_positions (state : Z) (n k : nat) : list nat := seq 0 k.

Definition example_frame (path : string) : frame :=
  mkFrame path [("transform_matrix", Opaque "[[1, 0], [0, 1]]")].

Definition example_train_frames : list frame :=
  map example_frame
      ["./train/r_0"; "./train/r_1"; "./train/r_2"; "./train/r_3";
       "./train/r_4"; "./train/r_5"; "./train/r_6"; "./train/r_7";
       "./train/r_8"; "./train/r_9"].

Definition example_test_frames : list frame :=
  map example_frame
      ["./test/r_0"; "./test/r_1"; "./test/r_2"; "./test/r_3"; "./test/r_4"].

Definition example_train : manifest :=
  [("camera_angle_x", VOther (Opaque "0.6911"));
   ("frames", VFrames example_train_frames)].

Definition example_test : manifest :=
  [("camera_angle_x", VOther (Opaque "0.6911"));
   ("frames", VFrames example_test_frames)].

Definition example_images : dir :=
  map (fun path => (path, DataFile path))
      ["train/r_0.png"; "train/r_1.png"; "train/r_2.png"; "train/r_3.png";
       "train/r_4.png"; "train/r_5.png"; "train/r_6.png"; "train/r_7.png";
       "train/r_8.png"; "train/r_9.png"; "test/r_0.png"; "test/r_1.png";
       "test/r_2.png"; "test/r_3.png"; "test/r_4.png"].

Definition example_raw : dir :=
  ("transforms_train.json", JsonFile example_train)
    :: ("transforms_test.json", JsonFile example_test)
    :: example_images.

(** A raw directory without the training manifest, and a subset directory
    left by an earlier run. *)
Definition example_raw_without_train : dir :=
  ("transforms_test.json", JsonFile example_test) :: example_images.

Definition example_stale_subset : dir :=
  [("transforms_train.json", JsonFile example_train);
   ("train/r_0.png", DataFile "train/r_0.png")].


(** ** What a call leaves in the subset directory *)


(** The frames of a raw manifest, the empty list when it cannot be read. *)
Definition manifest_frames (raw : dir) (name : string) : list frame :=
  match _load_json raw name with
  | Ok data => match get_frames data with
               | Ok frames => frames
               | Raise _ => []
               end
  | Raise _ => []
  end.

(** The frames the manifest loop keeps of the raw manifest [name]. *)
Definition retained_of (raw : dir) (full : bool) (selected_set : list string)
           (name : string) : list frame :=
  retained_frames full selected_set name (manifest_frames raw name).

(** The frames the manifest loop keeps over a list of manifests, in order:
    what [frames_to_copy] accumulates. *)
Definition retained_over (raw : dir) (full : bool) (selected_set : list string)
           (names : list string) : list frame :=
  flat_map (retained_of raw full selected_set) names.

(** The document the manifest loop writes for the raw manifest [data]. *)
Definition filtered_manifest (raw : dir) (full : bool)
           (selected_set : list string) (name : string) (data : manifest)
  : manifest :=
  dict_set data "frames" (VFrames (retained_of raw full selected_set name)).

(** ** The command line and the experiment driver *)

(** What [argparse] hands to the main block of [01_subset_views.py]:
    [--view-count] is an integer with default 3, [--indices] and [--names]
    are [None] or lists with at least one element, [--strategy] is one of the
    two choices. *)
Record cli_args : Type := mkCli {
  arg_view_count : Z;
  arg_indices : option (list Z);
  arg_names : option (list string);
  arg_strategy : string;
  arg_seed : option Z;
  arg_extension : string;
  arg_no_full_test_set : bool
}.

(** The [selection] dictionary of the main block: it has no ["view_count"]
    key. *)
Definition cli_selection (args : cli_args) : selection :=
  mkSelection (arg_indices args) (arg_names args) (Some (arg_strategy args))
              (arg_seed args) None.

(** The [subset] section of an experiment configuration, as
    [_run_single_config] reads it.  A key that is absent is [None]; the
    selection's own ["view_count"] key is [None] when absent and [Some v]
    when present with value [v], which may be null. *)
Record config_selection : Type := mkConfigSelection {
  conf_indices : option (list Z);
  conf_names : option (list string);
  conf_strategy : option string;
  conf_seed : option Z;
  conf_selection_view_count : option (option Z)
}.

Record subset_conf : Type := mkSubsetConf {
  conf_view_count : option Z;
  conf_selection : option config_selection;
  conf_extension : option string;
  conf_full_test_set : option bool
}.

Definition no_config_selection : config_selection :=
  mkConfigSelection None None None None None.

(** [subset_conf.get("selection", {})]. *)
Definition given_selection (conf : subset_conf) : config_selection :=
  match conf_selection conf with
  | Some s => s
  | None => no_config_selection
  end.

(** [selection = dict(subset_conf.get("selection", {}))] followed by the two
    [setdefault] calls, as [dict.get] then reads it. *)
Definition driver_selection (conf : subset_conf) : selection :=
  let given := given_selection conf in
  mkSelection
    (conf_indices given) (conf_names given)
    (Some (match conf_strategy given with
           | Some s => s
           | None => "uniform"
           end))
    (conf_seed given)
    (match conf_selection_view_count given with
     | Some v => v
     | None => conf_view_count conf
     end).

Section Callers.

Variable sample_positions : Z -> nat -> nat -> list nat.

(** [create_subset_views]: the same call, paths given as strings. *)
Definition create_subset_views (raw : dir) (before : option dir)
           (view_count : option Z) (sel : option selection)
           (extension : string) (full_test_set : bool) (entropy : Z)
  : dir * result summary :=
  create_view_subset sample_positions raw before view_count sel extension
                     full_test_set entropy.

(** The call made by the main block of [01_subset_views.py]. *)
Definition main_subset_views (args : cli_args) (raw : dir)
           (before : option dir) (entropy : Z) : dir * result summary :=
  create_subset_views raw before (Some (arg_view_count args))
                      (Some (cli_selection args)) (arg_extension args)
                      (negb (arg_no_full_test_set args)) entropy.

(** The call of [create_view_subset] made by [_run_single_config]. *)
Definition driver_create_subset (conf : subset_conf) (raw : dir)
           (before : option dir) (entropy : Z) : dir * result summary :=
  create_view_subset sample_positions raw before (conf_view_count conf)
                     (Some (driver_selection conf))
                     (match conf_extension conf with
                      | Some e => e
                      | None => ".png"
                      end)
                     (match conf_full_test_set conf with
                      | Some b => b
                      | None => true
                      end)
                     entropy.

End Callers.

(** ** Command lines of the external scripts

    [_flatten_cli_args], which [02_train.py] and [03_evaluate.py] both
    define, turns a dictionary of options into command-line tokens. *)

(** A scalar of a configuration.  A float is kept as the text [str] gives
    for it. *)
Inductive item : Type :=
| INone
| IBool (b : bool)
| IInt (z : Z)
| IFloat (text : string)
| IStr (s : string).

(** The value of an option: a scalar, or a list or tuple of scalars. *)
Inductive arg_value : Type :=
| One (v : item)
| Many (vs : list item).

(** [str(v)]. *)
Definition py_str (v : item) : string :=
  match v with
  | INone => "None"
  | IBool true => "True"
  | IBool false => "False"
  | IInt z => DecimalString.NilEmpty.string_of_int (Z.to_int z)
  | IFloat text => text
  | IStr s => s
  end.

(** [sorted] on strings: the order is the lexicographic order of the
    characters' codes. *)
Fixpoint insert_sorted (x : string) (l : list string) : list string :=
  match l with
  | [] => [x]
  | y :: rest =>
      if String.leb x y then x :: l else y :: insert_sorted x rest
  end.

Definition sorted_strings (l : list string) : list string :=
  fold_right insert_sorted [] l.

(** A list in the order [sorted] gives. *)
Definition leb_sorted (l : list string) : Prop :=
  StronglySorted (fun a b => String.leb a b = true) l.

(** The tokens one option contributes. *)
Definition flatten_option (key : string) (value : arg_value) : list string :=
  let flag := ("--" ++ key)%string in
  match value with
  | One INone => []
  | One (IBool b) => if b then [flag] else []
  | Many vs => flag :: map py_str vs
  | One v => [flag; py_str v]
  end.

(** [_flatten_cli_args].  The keys looked up are the dictionary's own, so
    the lookup never fails. *)
Definition _flatten_cli_args (arg_map : list (string * arg_value))
  : list string :=
  fold_left
    (fun flattened key =>
       match dict_get arg_map key with
       | Some value => flattened ++ flatten_option key value
       | None => flattened
       end)
    (sorted_strings (map fst arg_map)) [].

(** An option that is [None] or [False] is one the caller has not set. *)
Definition is_set (value : arg_value) : bool :=
  match value with
  | One INone => false
  | One (IBool false) => false
  | _ => true
  end.

(** ** Iteration numbers in method names

    [_extract_iteration] of [03_evaluate.py] searches the name for the
    pattern of one or more digits and converts the first match.  Among the
    characters of [string] (codes below 256) the class of digits is 0 to
    9. *)

Definition is_digit (c : ascii) : bool :=
  ((48 <=? nat_of_ascii c) && (nat_of_ascii c <=? 57))%nat.

(** The digits a string begins with: what the greedy pattern matches at the
    start of the string. *)
Fixpoint digit_run (s : string) : string :=
  match s with
  | EmptyString => EmptyString
  | String c rest =>
      if is_digit c then String c (digit_run rest) else EmptyString
  end.

(** [re.search] with the pattern of one or more digits: the leftmost
    position where a digit stands, and the whole run from there; [None]
    when the string has no digit. *)
Fixpoint search_digits (s : string) : option string :=
  match s with
  | EmptyString => None
  | String c rest =>
      if is_digit c then Some (digit_run s) else search_digits rest
  end.

(** [int] on a text of digits.  CPython (3.11, and the patched releases
    before it) refuses a text of more than 4300 digits.  [int] also reads
    signs, blanks and underscores, which a run of digits never has. *)
Definition int_max_str_digits : nat := 4300.

Definition int_of_digits (text : string) : result Z :=
  if (int_max_str_digits <? String.length text)%nat then Raise ValueError
  else
    match text with
    | EmptyString => Raise ValueError
    | String _ _ =>
        match DecimalString.NilEmpty.uint_of_string text with
        | Some d => Ok (Z.of_uint d)
        | None => Raise ValueError
        end
    end.

Definition _extract_iteration (method_name : string) : result (option Z) :=
  match search_digits method_name with
  | Some group => match int_of_digits group with
                  | Ok n => Ok (Some n)
                  | Raise e => Raise e
                  end
  | None => Ok None
  end.

(** ** Rows of the metrics table

    [_rows_from_results] and [_append_metrics_csv] of [03_evaluate.py], and
    the metadata [_run_single_config] of [04_run_experiment.py] hands to
    them. *)

(** A value of a row, before [csv] turns it into text. *)
Inductive cell : Type :=
| CNone
| CInt (z : Z)
| CFloat (text : string)
| CStr (s : string).

Definition row : Type := list (string * cell).

(** The metadata dictionary.  A field is [None] when the dictionary lacks
    the key, which differs from a key that holds [None].  The selected
    views, when given, are a list of strings. *)
Record metadata : Type := mkMetadata {
  md_timestamp : option cell;
  md_selected_views : option (list string);
  md_subset_label : option cell;
  md_view_count : option cell
}.

Definition METRICS_COLUMNS : list string :=
  ["timestamp"; "subset_label"; "view_count"; "model_dir"; "method";
   "iteration"; "psnr"; "ssim"; "lpips"; "selected_views"].

(** [d.get(key, default)]. *)
Definition get_or {V : Type} (field : option V) (default : V) : V :=
  match field with Some v => v | None => default end.

(** [sep.join(parts)]. *)
Fixpoint str_join (sep : string) (parts : list string) : string :=
  match parts with
  | [] => EmptyString
  | [part] => part
  | part :: rest => (part ++ sep ++ str_join sep rest)%string
  end.

Definition optional_int (n : option Z) : cell :=
  match n with Some z => CInt z | None => CNone end.

(** The dictionary built for one method of the results. *)
Definition result_row (timestamp subset_label view_count : cell)
           (model_dir : string) (selected : list string)
           (method : string) (iteration : option Z)
           (metrics : list (string * cell)) : row :=
  [("timestamp", timestamp);
   ("subset_label", subset_label);
   ("view_count", view_count);
   ("model_dir", CStr model_dir);
   ("method", CStr method);
   ("iteration", optional_int iteration);
   ("psnr", get_or (dict_get metrics "PSNR") CNone);
   ("ssim", get_or (dict_get metrics "SSIM") CNone);
   ("lpips", get_or (dict_get metrics "LPIPS") CNone);
   ("selected_views", CStr (str_join ";" selected))].

(** The loop over [results.items()]; an exception of [_extract_iteration]
    ends it. *)
Fixpoint rows_loop (timestamp subset_label view_count : cell)
         (model_dir : string) (selected : list string)
         (results : list (string * list (string * cell)))
  : result (list row) :=
  match results with
  | [] => Ok []
  | (method, metrics) :: rest =>
      match _extract_iteration method with
      | Raise e => Raise e
      | Ok iteration =>
          match rows_loop timestamp subset_label view_count model_dir
                          selected rest with
          | Raise e => Raise e
          | Ok rows =>
              Ok (result_row timestamp subset_label view_count model_dir
                             selected method iteration metrics :: rows)
          end
      end
  end.

(** [_rows_from_results].  [now] is what [time.time()] returns; the call is
    made whether or not the metadata has a timestamp. *)
Definition _rows_from_results
           (results : list (string * list (string * cell)))
           (model_dir : string) (md : metadata) (now : cell)
  : result (list row) :=
  let timestamp := get_or (md_timestamp md) now in
  let selected := get_or (md_selected_views md) [] in
  let subset_label := get_or (md_subset_label md) (CStr EmptyString) in
  let view_count := get_or (md_view_count md) CNone in
  rows_loop timestamp subset_label view_count model_dir selected results.

(** [csv.DictWriter.writerow] with the default settings: a key outside the
    field names raises [ValueError]; a field the row lacks is written as the
    empty string. *)
Definition writerow (fieldnames : list string) (r : row)
  : result (list cell) :=
  if forallb (fun key => mem_str key fieldnames) (map fst r)
  then Ok (map (fun key => get_or (dict_get r key) (CStr EmptyString))
               fieldnames)
  else Raise ValueError.

(** The table file as the lines written to it; [None] when the file does
    not exist. *)
Definition table : Type := list (list cell).

Fixpoint write_rows (lines : table) (rows : list row)
  : table * result unit :=
  match rows with
  | [] => (lines, Ok tt)
  | r :: rest =>
      match writerow METRICS_COLUMNS r with
      | Ok line => write_rows (lines ++ [line]) rest
      | Raise e => (lines, Raise e)
      end
  end.

(** [_append_metrics_csv]: the header is written when the file did not
    exist before it was opened. *)
Definition _append_metrics_csv (file : option table) (rows : list row)
  : option table * result unit :=
  let opened :=
    match file with
    | Some lines => lines
    | None => [map CStr METRICS_COLUMNS]
    end in
  let (lines, outcome) := write_rows opened rows in
  (Some lines, outcome).

(** The metadata [_run_single_config] passes to [evaluate_model]. *)
Definition driver_metadata (subset_label : string) (subset_meta : summary)
  : metadata :=
  {| md_timestamp := Some CNone;
     md_selected_views := Some (selected_views subset_meta);
     md_subset_label := Some (CStr subset_label);
     md_view_count := Some (CInt (view_count_out subset_meta)) |}.

(** ** Iterations to render

    [_normalize_list] of [04_run_experiment.py], [_normalize_iterations] of
    [03_evaluate.py] and the check [_run_render] makes before it runs any
    command.  The values converted by [int] are integers already. *)

(** A configuration value that holds iterations: absent or [None], one
    integer, or a list of integers. *)
Inductive int_field : Type :=
| FNone
| FOne (z : Z)
| FList (zs : list Z).

Definition _normalize_list (value : int_field) : list Z :=
  match value with
  | FNone => []
  | FList zs => zs
  | FOne z => [z]
  end.

(** [sorted] of a set of integers: ascending, each element once. *)
Fixpoint insert_distinct (x : Z) (l : list Z) : list Z :=
  match l with
  | [] => [x]
  | y :: rest =>
      if x <? y then x :: l
      else if x =? y then l
      else y :: insert_distinct x rest
  end.

Definition sorted_set (l : list Z) : list Z :=
  fold_right insert_distinct [] l.

(** The [render] section of a configuration. *)
Record render_conf : Type := mkRenderConf {
  rc_iterations : int_field;
  rc_iteration : int_field;
  rc_args : option (list (string * arg_value))
}.

Definition _normalize_iterations (conf : render_conf) : list Z :=
  let iterations_field :=
    match rc_iterations conf with
    | FNone => rc_iteration conf
    | field => field
    end in
  match iterations_field with
  | FNone => []
  | FList zs => sorted_set zs
  | FOne z => [z]
  end.

(** The first statements of [_run_render]: the iterations it will render,
    one command each, or [ValueError] when there is none. *)
Definition render_iterations (conf : render_conf) : result (list Z) :=
  match _normalize_iterations conf with
  | [] => Raise ValueError
  | iterations => Ok iterations
  end.

(** The render configuration [_run_single_config] hands on: the one of the
    configuration file, or the iterations of the training arguments. *)
Definition driver_render_conf (given : option render_conf)
           (training_iterations : int_field) : render_conf :=
  match given with
  | Some conf => conf
  | None => mkRenderConf (FList (_normalize_list training_iterations))
                         FNone None
  end.

(* ================================================================== *)
(** * Properties *)

(** ** Lists and de-duplication *)

Lemma mem_str_In (x : string) (l : list string) :
  mem_str x l = true <-> In x l.
Proof.
  unfold mem_str. rewrite existsb_exists. split.
  - intros [y [Hy Heq]]. apply String.eqb_eq in Heq. now subst.
  - intros H. exists x. split; [assumption | apply String.eqb_refl].
Qed.

Lemma mem_str_app (x : string) (l1 l2 : list string) :
  mem_str x (l1 ++ l2) = mem_str x l1 || mem_str x l2.
Proof. unfold mem_str. apply existsb_app. Qed.

Lemma filter_filter_absorb (x : string) (acc l : list string) :
  mem_str x acc = true ->
  filter (fun y => negb (mem_str y acc))
         (filter (fun y => negb (String.eqb y x)) l)
  = filter (fun y => negb (mem_str y acc)) l.
Proof.
  intros Hx. induction l as [|y l IH]; simpl; [reflexivity|].
  destruct (String.eqb y x) eqn:E; simpl.
  - apply String.eqb_eq in E. subst y. rewrite Hx. simpl. exact IH.
  - destruct (mem_str y acc); simpl; [exact IH | now rewrite IH].
Qed.

Lemma filter_filter_snoc (x : string) (acc l : list string) :
  filter (fun y => negb (mem_str y (acc ++ [x]))) l
  = filter (fun y => negb (mem_str y acc))
           (filter (fun y => negb (String.eqb y x)) l).
Proof.
  induction l as [|y l IH]; simpl; [reflexivity|].
  rewrite mem_str_app. simpl. rewrite orb_false_r.
  destruct (String.eqb y x) eqn:E; simpl.
  - rewrite orb_true_r. simpl. exact IH.
  - rewrite orb_false_r. destruct (mem_str y acc); simpl; [exact IH | now rewrite IH].
Qed.

Lemma fromkeys_fold (xs acc : list string) :
  fold_left (fun keys x => if mem_str x keys then keys else keys ++ [x]) xs acc
  = acc ++ filter (fun y => negb (mem_str y acc)) (keep_first xs).
Proof.
  revert acc. induction xs as [|x xs IH]; intros acc; simpl.
  - now rewrite app_nil_r.
  - destruct (mem_str x acc) eqn:E; simpl.
    + rewrite IH. now rewrite filter_filter_absorb.
    + rewrite IH. rewrite <- app_assoc. simpl. now rewrite filter_filter_snoc.
Qed.

(** [list(dict.fromkeys(xs))] keeps the first occurrence of each key. *)
Lemma dict_fromkeys_keep_first (xs : list string) :
  dict_fromkeys xs = keep_first xs.
Proof.
  unfold dict_fromkeys. rewrite fromkeys_fold. simpl.
  induction (keep_first xs) as [|y l IH]; simpl; [reflexivity | now rewrite IH].
Qed.

Lemma keep_first_In (x : string) (xs : list string) :
  In x (keep_first xs) <-> In x xs.
Proof.
  induction xs as [|y xs IH]; simpl; [tauto|].
  rewrite filter_In, IH. split.
  - intros [H | [H _]]; auto.
  - intros [H | H]; auto.
    destruct (String.eqb x y) eqn:E.
    + apply String.eqb_eq in E. auto.
    + right. split; [assumption | reflexivity].
Qed.

Lemma keep_first_NoDup (xs : list string) : NoDup (keep_first xs).
Proof.
  induction xs as [|x xs IH]; simpl; constructor.
  - rewrite filter_In. intros [_ H]. now rewrite String.eqb_refl in H.
  - now apply NoDup_filter.
Qed.

Lemma filter_neq_id (x : string) (l : list string) :
  ~ In x l -> filter (fun y => negb (String.eqb y x)) l = l.
Proof.
  induction l as [|y l IH]; simpl; intros H; [reflexivity|].
  destruct (String.eqb y x) eqn:E.
  - apply String.eqb_eq in E. subst. exfalso. apply H. now left.
  - simpl. f_equal. apply IH. intros Hin. apply H. now right.
Qed.

Lemma keep_first_id (xs : list string) : NoDup xs -> keep_first xs = xs.
Proof.
  induction 1 as [|x l Hx Hl IH]; simpl; [reflexivity|].
  rewrite IH. f_equal. now apply filter_neq_id.
Qed.

(** ** Paths *)

Lemma string_app_assoc (a b c : string) :
  ((a ++ b) ++ c)%string = (a ++ (b ++ c))%string.
Proof. induction a as [|x a IH]; simpl; [reflexivity | now rewrite IH]. Qed.

Lemma split_slash_aux_app (cur s t : string) :
  split_slash_aux cur (s ++ String slash t)%string
  = split_slash_aux cur s ++ split_slash_aux EmptyString t.
Proof.
  revert cur. induction s as [|c s IH]; intros cur; simpl.
  - reflexivity.
  - destruct (Ascii.eqb c slash); [now rewrite IH | apply IH].
Qed.

Lemma split_slash_aux_plain (cur t : string) :
  contains slash t = false -> split_slash_aux cur t = [(cur ++ t)%string].
Proof.
  revert cur. induction t as [|c t IH]; intros cur H; simpl in *.
  - f_equal. induction cur as [|x cur IHc]; simpl; [reflexivity | now rewrite <- IHc].
  - apply orb_false_iff in H as [Hc Ht]. rewrite Hc, IH by assumption.
    now rewrite string_app_assoc.
Qed.

Lemma path_name_of_last_component (prefix name : string) :
  contains slash name = false ->
  name <> EmptyString -> name <> "." ->
  path_name (prefix ++ String slash name)%string = name
  /\ path_name name = name.
Proof.
  intros Hs He Hd.
  assert (Hkeep : negb (String.eqb name EmptyString || String.eqb name ".")
                  = true).
  { destruct (String.eqb name EmptyString) eqn:E1;
      [apply String.eqb_eq in E1; contradiction|].
    destruct (String.eqb name ".") eqn:E2;
      [apply String.eqb_eq in E2; contradiction | reflexivity]. }
  unfold path_name, path_parts, split_slash. split.
  - rewrite split_slash_aux_app, (split_slash_aux_plain EmptyString name Hs).
    rewrite filter_app. cbn [filter append]. rewrite Hkeep.
    apply last_last.
  - rewrite (split_slash_aux_plain EmptyString name Hs).
    cbn [filter append]. now rewrite Hkeep.
Qed.

Lemma rfind_dot_none (s : string) :
  contains dot s = false -> rfind_dot s = None.
Proof.
  induction s as [|c s IH]; simpl; [reflexivity|].
  intros H. apply orb_false_iff in H as [Hc Hs]. now rewrite IH, Hc.
Qed.

Lemma rfind_dot_last (base ext : string) :
  contains dot ext = false ->
  rfind_dot (base ++ String dot ext)%string = Some (String.length base).
Proof.
  intros H. induction base as [|c base IH]; simpl.
  - now rewrite (rfind_dot_none ext H).
  - now rewrite IH.
Qed.

Lemma substring_prefix (a b : string) :
  substring 0 (String.length a) (a ++ b)%string = a.
Proof.
  induction a as [|c a IH]; simpl.
  - now destruct b.
  - now rewrite IH.
Qed.

Lemma string_length_app (a b : string) :
  String.length (a ++ b)%string = (String.length a + String.length b)%nat.
Proof. induction a as [|c a IH]; simpl; [reflexivity | now rewrite IH]. Qed.

Lemma stem_of_name_strips_extension (base ext : string) :
  base <> EmptyString -> ext <> EmptyString -> contains dot ext = false ->
  stem_of_name (base ++ String dot ext)%string = base.
Proof.
  intros Hb He Hd. unfold stem_of_name. rewrite (rfind_dot_last base ext Hd).
  rewrite string_length_app. cbn [String.length].
  assert (H1 : Nat.ltb 0 (String.length base) = true).
  { apply Nat.ltb_lt. destruct base; [contradiction | simpl; lia]. }
  assert (H2 : Nat.ltb (String.length base)
                       (String.length base + S (String.length ext) - 1) = true).
  { apply Nat.ltb_lt. destruct ext; [contradiction | simpl; lia]. }
  rewrite H1, H2. apply substring_prefix.
Qed.

Lemma stem_of_name_plain (name : string) :
  contains dot name = false -> stem_of_name name = name.
Proof. intros H. unfold stem_of_name. now rewrite rfind_dot_none. Qed.

Lemma contains_app (c : ascii) (a b : string) :
  contains c (a ++ b)%string = contains c a || contains c b.
Proof.
  induction a as [|x a IH]; simpl; [reflexivity|].
  now rewrite IH, orb_assoc.
Qed.

(** [Path(p).stem] drops the directories and the extension. *)
Lemma path_stem_strips_directory_and_extension (prefix base ext : string) :
  base <> EmptyString -> ext <> EmptyString ->
  contains slash base = false -> contains slash ext = false ->
  contains dot ext = false ->
  path_stem (prefix ++ String slash (base ++ String dot ext))%string = base
  /\ path_stem (base ++ String dot ext)%string = base.
Proof.
  intros Hb He Hsb Hse Hde.
  assert (Hs : contains slash (base ++ String dot ext)%string = false).
  { rewrite contains_app. cbn [contains]. now rewrite Hsb, Hse. }
  assert (Hne : (base ++ String dot ext)%string <> EmptyString)
    by (destruct base; [contradiction | discriminate]).
  assert (Hnd : (base ++ String dot ext)%string <> ".").
  { destruct base as [|c base]; [contradiction|].
    destruct base; simpl; discriminate. }
  destruct (path_name_of_last_component prefix _ Hs Hne Hnd) as [H1 H2].
  unfold path_stem. rewrite H1, H2.
  split; now apply stem_of_name_strips_extension.
Qed.

(** ** The explicit branches of the selector *)

Lemma fold_append_map {A : Type} (f : A -> string) (l : list A)
      (init : list string) :
  fold_left (fun acc a => acc ++ [f a]) l init = init ++ map f l.
Proof.
  revert init. induction l as [|a l IH]; intros init; simpl.
  - now rewrite app_nil_r.
  - rewrite IH, <- app_assoc. reflexivity.
Qed.

Lemma fold_append_filter_map {A : Type} (keep : A -> bool) (f : A -> string)
      (l : list A) (init : list string) :
  fold_left (fun acc a => if keep a then acc ++ [f a] else acc) l init
  = init ++ map f (filter keep l).
Proof.
  revert init. induction l as [|a l IH]; intros init; simpl.
  - now rewrite app_nil_r.
  - rewrite IH. destruct (keep a); simpl; [|reflexivity].
    now rewrite <- app_assoc.
Qed.

Lemma select_by_names_spec (names : list string) :
  select_by_names names = keep_first (map path_stem names).
Proof.
  unfold select_by_names.
  now rewrite dict_fromkeys_keep_first, fold_append_map.
Qed.

Lemma select_by_indices_spec (frame_names : list string) (indices : list Z) :
  select_by_indices frame_names indices
  = keep_first
      (map (fun idx => nth (Z.to_nat idx) frame_names EmptyString)
           (filter (valid_position (List.length frame_names)) indices)).
Proof.
  unfold select_by_indices. rewrite dict_fromkeys_keep_first.
  now rewrite (fold_append_filter_map
                 (valid_position (List.length frame_names))
                 (fun idx => nth (Z.to_nat idx) frame_names EmptyString)).
Qed.

Section SelectorFacts.

Variable sample_positions : Z -> nat -> nat -> list nat.

#[local] Abbreviation choose := (_choose_views sample_positions).

(** C7. A non-empty [names] list decides the selection alone: whatever the
    catalog, the count, the indices, the strategy and the seed, the selector
    returns the stems of the given names ([Path(raw).stem]), first
    occurrences only, in the order given; the list has no duplicate; for
    [names = ["b"; "a"; "b"]] it is [["b"; "a"]]; and the stem of a path
    whose last component is [base.ext] is [base], the directories and the
    extension being dropped. *)
Theorem names_branch_returns_given_names
        (frames : list frame) (view_count : option Z)
        (indices : option (list Z)) (name : string) (more : list string)
        (strategy : string) (seed : option Z) (entropy : Z) :
  choose frames view_count indices (Some (name :: more)) strategy seed entropy
  = Ok (keep_first (map path_stem (name :: more)))
  /\ NoDup (keep_first (map path_stem (name :: more)))
  /\ choose frames view_count indices (Some ["b"; "a"; "b"]) strategy seed
            entropy
     = Ok ["b"; "a"]
  /\ (forall prefix base ext,
        base <> EmptyString -> ext <> EmptyString ->
        contains slash base = false -> contains slash ext = false ->
        contains dot ext = false ->
        path_stem (prefix ++ String slash (base ++ String dot ext))%string
        = base
        /\ path_stem (base ++ String dot ext)%string = base).
Proof.
  split; [|split; [|split]].
  - unfold _choose_views. cbn [truthy_list list_or_empty].
    now rewrite select_by_names_spec.
  - apply keep_first_NoDup.
  - reflexivity.
  - apply path_stem_strips_directory_and_extension.
Qed.

(** C8. With no usable [names] and a non-empty [indices] list, the selector
    keeps the indices [idx] with [0 <= idx < len(catalog)], maps each to the
    normalised name at that position, and removes repeated names keeping
    first occurrences; a negative index is dropped, it never counts from
    the end.  For a catalog of five frames and [indices = [0; 4; 10; -1]]
    the result is the names at positions 0 and 4, in that order. *)
Theorem indices_branch_maps_valid_positions
        (frames : list frame) (view_count : option Z) (idx : Z)
        (more : list Z) (names : option (list string)) (strategy : string)
        (seed : option Z) (entropy : Z) :
  truthy_list names = false ->
  choose frames view_count (Some (idx :: more)) names strategy seed entropy
  = Ok (keep_first
          (map (fun i => nth (Z.to_nat i) (catalog_names frames) EmptyString)
               (filter (valid_position (List.length frames)) (idx :: more))))
  /\ (forall i, i < 0 -> valid_position (List.length frames) i = false)
  /\ (forall f0 f1 f2 f3 f4,
        choose [f0; f1; f2; f3; f4] view_count (Some [0; 4; 10; -1]) names
               strategy seed entropy
        = Ok (keep_first [_normalize_frame_name (file_path f0);
                          _normalize_frame_name (file_path f4)])).
Proof.
  intros Hnames.
  assert (Hgen : forall fs i l,
             choose fs view_count (Some (i :: l)) names strategy seed entropy
             = Ok (keep_first
                     (map (fun j => nth (Z.to_nat j) (catalog_names fs)
                                        EmptyString)
                          (filter (valid_position (List.length fs))
                                  (i :: l))))).
  { intros fs i l. unfold _choose_views. rewrite Hnames.
    cbn [truthy_list list_or_empty]. rewrite select_by_indices_spec.
    unfold catalog_names. now rewrite length_map. }
  split; [apply Hgen | split].
  - intros i Hi. unfold valid_position.
    destruct (0 <=? i) eqn:E; [apply Z.leb_le in E; lia | reflexivity].
  - intros f0 f1 f2 f3 f4. rewrite Hgen. reflexivity.
Qed.

(** C6. The outcome of the selector does not depend on the operating
    system's entropy when the strategy is uniform, nor when the strategy is
    random and an integer seed is given: two calls with the same catalog and
    the same policy return the same list. *)
Theorem selector_is_deterministic
        (frames : list frame) (view_count : option Z)
        (indices : option (list Z)) (names : option (list string))
        (seed : option Z) (s : Z) (entropy1 entropy2 : Z) :
  choose frames view_count indices names "uniform" seed entropy1
  = choose frames view_count indices names "uniform" seed entropy2
  /\ choose frames view_count indices names "random" (Some s) entropy1
     = choose frames view_count indices names "random" (Some s) entropy2.
Proof.
  split; reflexivity.
Qed.

(** The same holds for every strategy string other than ["random"], all of
    which select the uniform branch. *)
Lemma selector_ignores_entropy_unless_random
      (frames : list frame) (view_count : option Z)
      (indices : option (list Z)) (names : option (list string))
      (strategy : string) (seed : option Z) (entropy1 entropy2 : Z) :
  String.eqb strategy "random" = false ->
  choose frames view_count indices names strategy seed entropy1
  = choose frames view_count indices names strategy seed entropy2.
Proof.
  intros H. unfold _choose_views. now rewrite H.
Qed.

(** C3 (the code departs from the claim). On a catalog that is not empty, a
    count of zero with the uniform strategy raises [ZeroDivisionError], and a
    negative count with the random strategy raises [ValueError]. *)
Theorem degenerate_counts_raise
        (first : frame) (others : list frame) (seed : option Z) (entropy : Z) :
  choose (first :: others) (Some 0) None None "uniform" seed entropy
  = Raise ZeroDivisionError
  /\ choose (first :: others) (Some (-1)) None None "random" seed entropy
     = Raise ValueError.
Proof.
  unfold _choose_views, uniform_select, sample.
  cbn [truthy_list]. unfold catalog_names. cbn [map List.length].
  set (n := List.length
              (map (fun f => _normalize_frame_name (file_path f)) others)).
  assert (H0 : (Z.of_nat (S n) <=? 0) = false) by (apply Z.leb_gt; lia).
  assert (H1 : (Z.of_nat (S n) <=? -1) = false) by (apply Z.leb_gt; lia).
  rewrite H0, H1.
  split; [reflexivity|].
  change (String.eqb "random" "random") with true. cbv iota.
  destruct (0 <=? Z.min (-1) _) eqn:E; [|reflexivity].
  apply Z.leb_le in E. lia.
Qed.

End SelectorFacts.

(** ** Dictionaries *)





(** ** Steps of the assembler *)

Lemma assemble_one_unfold (raw : dir) (full : bool) (sel : list string)
      (acc : assembly) (name : string) (d : dir) :
  assemble_one raw full sel acc name d
  = match _load_json raw name with
    | Raise e => (d, Raise e)
    | Ok data =>
        match get_frames data with
        | Raise e => (d, Raise e)
        | Ok all_frames =>
            let frames := retained_frames full sel name all_frames in
            (dict_set d name
                      (JsonFile (dict_set data "frames" (VFrames frames))),
             Ok (mkAssembly
                   (dict_set (counts acc) name (Z.of_nat (List.length frames)))
                   (frames_to_copy acc ++ frames)))
        end
    end.
Proof.
  unfold assemble_one, bind, lift, _write_json, ret.
  destruct (_load_json raw name); [|reflexivity].
  destruct (get_frames a); reflexivity.
Qed.


Section DirectoryInvariants.

Variable raw : dir.

(** The file found under one path of the subset directory, [None] when there
    is none, and a property [S] of it. *)
Variable path : string.
Variable S : option file -> Prop.






End DirectoryInvariants.

(** ** The assembler as a whole *)

Section AssemblerFacts.

Variable sample_positions : Z -> nat -> nat -> list nat.

#[local] Abbreviation build := (build_subset sample_positions).
#[local] Abbreviation create := (create_view_subset sample_positions).

Lemma build_subset_unfold (raw : dir) (view_count : option Z)
      (sel : option selection) (extension : string) (full : bool)
      (entropy : Z) (d0 : dir) :
  build raw view_count sel extension full entropy d0
  = match dict_get raw train_name with
    | None => (d0, Raise FileNotFoundError)
    | Some _ =>
        match _load_json raw train_name with
        | Raise e => (d0, Raise e)
        | Ok train =>
            match get_frames train with
            | Raise e => (d0, Raise e)
            | Ok base_frames =>
                match selector_call sample_positions base_frames view_count
                                    sel entropy with
                | Raise e => (d0, Raise e)
                | Ok views =>
                    match assemble_loop raw full views (transform_files raw)
                                        (mkAssembly [] []) d0 with
                    | (d1, Raise e) => (d1, Raise e)
                    | (d1, Ok acc) =>
                        match _copy_images (frames_to_copy acc) raw extension d1
                        with
                        | (d2, Raise e) => (d2, Raise e)
                        | (d2, Ok _) =>
                            (d2,
                             Ok (mkSummary
                                   (Z.of_nat (List.length views)) views
                                   (strategy_or_default
                                      (selection_or_default sel))
                                   (sel_indices (selection_or_default sel))
                                   (sel_names (selection_or_default sel))
                                   (counts acc)))
                        end
                    end
                end
            end
        end
    end.
Proof.
  unfold build_subset, selector_call, selection_or_default,
    strategy_or_default, bind, lift, ret, throw.
  destruct (dict_get raw train_name); [|reflexivity].
  destruct (_load_json raw train_name) as [train|e]; [|reflexivity].
  destruct (get_frames train) as [base|e]; [|reflexivity].
  destruct (_choose_views _ _ _ _ _ _ _ _) as [views|e]; [|reflexivity].
  destruct (assemble_loop _ _ _ _ _ _) as [d1 [acc|e]]; [|reflexivity].
  destruct (_copy_images _ _ _ _) as [d2 [u|e]]; reflexivity.
Qed.








Lemma create_view_subset_result (raw : dir) (before : option dir)
      (view_count : option Z) (sel : option selection) (extension : string)
      (full : bool) (entropy : Z) (out : summary) :
  snd (create raw before view_count sel extension full entropy) = Ok out ->
  exists train base_frames,
    dict_get raw train_name = Some (JsonFile train)
    /\ get_frames train = Ok base_frames
    /\ selector_call sample_positions base_frames view_count sel entropy
       = Ok (selected_views out)
    /\ view_count_out out = Z.of_nat (List.length (selected_views out)).
Proof.
  unfold create_view_subset.
  assert (He : match before with Some _ => ([] : dir) | None => [] end = [])
    by (destruct before; reflexivity).
  rewrite He, build_subset_unfold. unfold _load_json.
  destruct (dict_get raw train_name) as [[train|bytes]|] eqn:Et;
    try (cbn; discriminate).
  destruct (get_frames train) as [base|e] eqn:Eg; [|cbn; discriminate].
  destruct (selector_call _ _ _ _ _) as [views|e] eqn:Es; [|cbn; discriminate].
  destruct (assemble_loop _ _ _ _ _ _) as [d1 [acc|e]]; [|cbn; discriminate].
  destruct (_copy_images _ _ _ _) as [d2 [u|e]]; [|cbn; discriminate].
  cbn [snd]. intros H. inversion H; subst out. cbn.
  exists train, base. repeat split; assumption || reflexivity.
Qed.



(** C2, as the code has it. When the raw directory has no
    [transforms_train.json] the call raises [FileNotFoundError], and it does
    so after the subset directory has been removed and created again: the
    directory is left empty, whatever it held before. *)
Theorem missing_train_manifest_fails_after_reset
        (raw : dir) (before : option dir) (view_count : option Z)
        (sel : option selection) (extension : string) (full : bool)
        (entropy : Z) :
  dict_get raw train_name = None ->
  create raw before view_count sel extension full entropy
  = ([], Raise FileNotFoundError).
Proof.
  intros H. unfold create_view_subset, build_subset. rewrite H.
  destruct before; reflexivity.
Qed.



Lemma take_all_when_count_absent (frames : list frame)
      (indices : option (list Z)) (names : option (list string))
      (strategy : string) (seed : option Z) (entropy : Z) :
  truthy_list names = false ->
  truthy_list indices = false ->
  _choose_views sample_positions frames None indices names strategy seed
                entropy
  = Ok (catalog_names frames).
Proof.
  intros Hn Hi. unfold _choose_views. now rewrite Hn, Hi.
Qed.

(** C10, as the code has it. A positional [view_count] of zero is false in
    [view_count or selection.get("view_count")]: the count in effect is the
    selection's, [None] when there is none, and the call is the call made
    with no count.  When the selection has no count and no usable names or
    indices, the selector returns the whole catalog in catalog order, which
    is what a returning call reports. *)
Theorem zero_view_count_is_treated_as_absent
        (raw : dir) (before : option dir) (sel : option selection)
        (extension : string) (full : bool) (entropy : Z) (train : manifest)
        (base_frames : list frame) :
  dict_get raw train_name = Some (JsonFile train) ->
  get_frames train = Ok base_frames ->
  truthy_list (sel_names (selection_or_default sel)) = false ->
  truthy_list (sel_indices (selection_or_default sel)) = false ->
  effective_view_count (Some 0) (selection_or_default sel)
  = sel_view_count (selection_or_default sel)
  /\ create raw before (Some 0) sel extension full entropy
     = create raw before None sel extension full entropy
  /\ (sel_view_count (selection_or_default sel) = None ->
      selector_call sample_positions base_frames (Some 0) sel entropy
      = Ok (catalog_names base_frames)
      /\ forall out,
          snd (create raw before (Some 0) sel extension full entropy) = Ok out ->
          selected_views out = catalog_names base_frames
          /\ view_count_out out = Z.of_nat (List.length base_frames)).
Proof.
  intros Htrain Hframes Hnames Hindices.
  split; [reflexivity | split; [reflexivity|]].
  intros Hcount.
  assert (Hcall : selector_call sample_positions base_frames (Some 0) sel entropy
                  = Ok (catalog_names base_frames)).
  { unfold selector_call. cbn [effective_view_count Z.eqb]. rewrite Hcount.
    now apply take_all_when_count_absent. }
  split; [exact Hcall|].
  intros out Hout.
  destruct (create_view_subset_result raw before (Some 0) sel extension full
              entropy out Hout) as [train' [base' [Ht [Hg [Hs Hv]]]]].
  rewrite Htrain in Ht. inversion Ht; subst train'.
  rewrite Hframes in Hg. inversion Hg; subst base'.
  rewrite Hcall in Hs. inversion Hs as [Hviews].
  split; [reflexivity|].
  rewrite Hv, <- Hviews. unfold catalog_names. now rewrite length_map.
Qed.

End AssemblerFacts.

(** ** Rounding to binary64

    Rounding to nearest is monotone and leaves a double as it is.  The two
    facts are used in one form: a double below the exact value is below the
    rounded one ([round_ge]), a double above the exact value is above the
    rounded one ([round_le]).  Values are compared after scaling by
    [2 ^ 52], which makes every double between one and [2 ^ 53] an integer. *)

Lemma rhe_floor (num den W : Z) :
  0 < den -> den * W <= num -> W <= Binary64.round_half_even num den.
Proof.
  intros Hd H. unfold Binary64.round_half_even.
  assert (W <= num / den) by (apply Z.div_le_lower_bound; lia).
  destruct (2 * (num mod den) <? den); [lia|].
  destruct (den <? 2 * (num mod den)); [lia|].
  destruct (Z.even (num / den)); lia.
Qed.

Lemma rhe_ceil (num den W : Z) :
  0 < den -> num <= den * W -> Binary64.round_half_even num den <= W.
Proof.
  intros Hd H. unfold Binary64.round_half_even.
  pose proof (Z.div_mod num den ltac:(lia)) as Hdm.
  pose proof (Z.mod_pos_bound num den Hd) as Hm.
  destruct (2 * (num mod den) <? den) eqn:E1.
  - nia.
  - apply Z.ltb_ge in E1.
    assert (num / den + 1 <= W) by nia.
    destruct (den <? 2 * (num mod den)); [lia|].
    destruct (Z.even (num / den)); lia.
Qed.

Lemma pow2_split (a b : Z) :
  0 <= a -> 0 <= b -> 2 ^ (a + b) = 2 ^ a * 2 ^ b.
Proof. intros. apply Z.pow_add_r; lia. Qed.

(** The exponent chosen for a value between one and [2 ^ 53] puts its
    mantissa between [2 ^ 52] and [2 ^ 53]. *)
Lemma scale_exp_spec (p q : Z) :
  0 < q -> q <= p -> p < 2 ^ 53 * q ->
  let e := Binary64.scale_exp p q in
  -52 <= e <= 0 /\ 2 ^ 52 * q <= p * 2 ^ (- e) < 2 ^ 53 * q.
Proof.
  intros Hq Hqp Hp. unfold Binary64.scale_exp.
  pose proof (Z.log2_spec p ltac:(lia)) as [Hp1 Hp2].
  pose proof (Z.log2_spec q Hq) as [Hq1 Hq2].
  pose proof (Z.log2_nonneg q) as Hlq.
  pose proof (Z.log2_le_mono q p Hqp) as Hmono.
  set (lp := Z.log2 p) in *. set (lq := Z.log2 q) in *.
  set (d := lp - lq).
  assert (Hd : 0 <= d) by (unfold d; lia).
  replace (Z.max 0 (- d)) with 0 by lia. replace (Z.max 0 d) with d by lia.
  rewrite Z.pow_0_r, Z.mul_1_r.
  assert (Hlp : 2 ^ lp = 2 ^ d * 2 ^ lq).
  { replace lp with (d + lq) by (unfold d; lia). apply pow2_split; lia. }
  assert (Hsucc : forall x, 0 <= x -> 2 ^ Z.succ x = 2 * 2 ^ x).
  { intros x Hx. rewrite Z.pow_succ_r; lia. }
  rewrite (Hsucc lp) in Hp2 by lia. rewrite (Hsucc lq) in Hq2 by lia.
  assert (HD : 0 < 2 ^ d) by (apply Z.pow_pos_nonneg; lia).
  assert (HLq : 0 < 2 ^ lq) by (apply Z.pow_pos_nonneg; lia).
  assert (Hup : p < 2 * 2 ^ d * q) by nia.
  assert (Hlo : 2 ^ d * q < 2 * p) by nia.
  assert (Hd54 : d < 54).
  { destruct (Z_lt_le_dec d 54); [assumption|].
    assert (2 ^ 54 <= 2 ^ d) by (apply Z.pow_le_mono_r; lia). nia. }
  destruct (p <? q * 2 ^ d) eqn:E.
  - apply Z.ltb_lt in E.
    assert (1 <= d).
    { destruct (Z_lt_le_dec d 1); [|assumption].
      replace d with 0 in E by lia. rewrite Z.pow_0_r in E. lia. }
    replace (- (d - 53)) with (53 - d) by lia.
    assert (HK : 2 ^ d * 2 ^ (53 - d) = 2 ^ 53).
    { rewrite <- pow2_split by lia. f_equal. lia. }
    assert (0 < 2 ^ (53 - d)) by (apply Z.pow_pos_nonneg; lia).
    split; [lia|]. nia.
  - apply Z.ltb_ge in E.
    assert (d < 53).
    { destruct (Z_lt_le_dec d 53); [assumption|].
      assert (2 ^ 53 <= 2 ^ d) by (apply Z.pow_le_mono_r; lia). nia. }
    replace (- (d - 52)) with (52 - d) by lia.
    assert (HK : 2 ^ d * 2 ^ (52 - d) = 2 ^ 52).
    { rewrite <- pow2_split by lia. f_equal. lia. }
    assert (0 < 2 ^ (52 - d)) by (apply Z.pow_pos_nonneg; lia).
    split; [lia|]. nia.
Qed.

Lemma round_spec (p q : Z) :
  in_unit_range p q ->
  exists s,
    0 <= s <= 52
    /\ 2 ^ 52 * q <= p * 2 ^ s < 2 ^ 53 * q
    /\ Binary64.round p q
       = Binary64.mk (Binary64.round_half_even (p * 2 ^ s) q) (- s).
Proof.
  intros (Hq & Hqp & Hp).
  destruct (scale_exp_spec p q Hq Hqp Hp) as [He Hb].
  exists (- Binary64.scale_exp p q). split; [lia|]. split; [exact Hb|].
  unfold Binary64.round.
  destruct (p <=? 0) eqn:E; [apply Z.leb_le in E; lia|].
  replace (Z.max 0 (- Binary64.scale_exp p q))
    with (- Binary64.scale_exp p q) by lia.
  replace (Z.max 0 (Binary64.scale_exp p q)) with 0 by lia.
  rewrite Z.pow_0_r, Z.mul_1_r. f_equal. lia.
Qed.

(** A multiple of [2 ^ j] with a 53-bit factor that is at least
    [2 ^ (52 + c)] is a multiple of [2 ^ c]. *)
Lemma dyadic_multiple (m j c : Z) :
  0 <= m < 2 ^ 53 -> 0 <= j -> 0 <= c ->
  2 ^ 52 * 2 ^ c <= m * 2 ^ j ->
  exists w, m * 2 ^ j = w * 2 ^ c.
Proof.
  intros Hm Hj Hc H.
  assert (c <= j).
  { destruct (Z_lt_le_dec j c) as [Hlt|]; [|assumption].
    assert (2 ^ (j + 1) <= 2 ^ c) by (apply Z.pow_le_mono_r; lia).
    rewrite Z.pow_add_r, Z.pow_1_r in H0 by lia.
    assert (0 < 2 ^ j) by (apply Z.pow_pos_nonneg; lia). nia. }
  exists (m * 2 ^ (j - c)).
  rewrite <- Z.mul_assoc, <- Z.pow_add_r by lia. do 2 f_equal. lia.
Qed.

(** A double [m * 2 ^ j / 2 ^ 52] that is at most [p / q] is at most the
    rounding of [p / q]. *)
Lemma round_ge (p q m j : Z) :
  in_unit_range p q ->
  0 <= m < 2 ^ 53 -> 0 <= j ->
  m * 2 ^ j * q <= p * 2 ^ 52 ->
  m * 2 ^ j <= Binary64.scaled52 (Binary64.round p q).
Proof.
  intros Hr Hm Hj H.
  destruct (round_spec p q Hr) as (s & Hs & Hb & ->).
  destruct Hr as (Hq & Hqp & Hp).
  unfold Binary64.scaled52. cbn [Binary64.mant Binary64.expo].
  set (c := - s + 52). assert (Hc : 0 <= c <= 52) by (unfold c; lia).
  assert (HC : 0 < 2 ^ c) by (apply Z.pow_pos_nonneg; lia).
  assert (HS : 0 < 2 ^ s) by (apply Z.pow_pos_nonneg; lia).
  assert (HSC : 2 ^ s * 2 ^ c = 2 ^ 52).
  { rewrite <- Z.pow_add_r by lia. f_equal. unfold c. lia. }
  set (N := p * 2 ^ s) in *.
  assert (HM : 2 ^ 52 <= Binary64.round_half_even N q)
    by (apply rhe_floor; lia).
  destruct (Z_lt_le_dec (m * 2 ^ j) (2 ^ 52 * 2 ^ c)) as [Hlt|Hge]; [nia|].
  destruct (dyadic_multiple m j c Hm Hj ltac:(lia) Hge) as [w Hw].
  rewrite Hw in *.
  assert (w <= Binary64.round_half_even N q).
  { apply rhe_floor; [lia|]. unfold N. nia. }
  nia.
Qed.

(** A double [m * 2 ^ j / 2 ^ 52] that is at least [p / q] is at least the
    rounding of [p / q]. *)
Lemma round_le (p q m j : Z) :
  in_unit_range p q ->
  0 <= m < 2 ^ 53 -> 0 <= j ->
  p * 2 ^ 52 <= m * 2 ^ j * q ->
  Binary64.scaled52 (Binary64.round p q) <= m * 2 ^ j.
Proof.
  intros Hr Hm Hj H.
  destruct (round_spec p q Hr) as (s & Hs & Hb & ->).
  destruct Hr as (Hq & Hqp & Hp).
  unfold Binary64.scaled52. cbn [Binary64.mant Binary64.expo].
  set (c := - s + 52). assert (Hc : 0 <= c <= 52) by (unfold c; lia).
  assert (HC : 0 < 2 ^ c) by (apply Z.pow_pos_nonneg; lia).
  assert (HS : 0 < 2 ^ s) by (apply Z.pow_pos_nonneg; lia).
  assert (HSC : 2 ^ s * 2 ^ c = 2 ^ 52).
  { rewrite <- Z.pow_add_r by lia. f_equal. unfold c. lia. }
  set (N := p * 2 ^ s) in *.
  assert (HM : Binary64.round_half_even N q <= 2 ^ 53)
    by (apply rhe_ceil; lia).
  destruct (Z_lt_le_dec (m * 2 ^ j) (2 ^ 53 * 2 ^ c)) as [Hlt|Hge]; [|nia].
  assert (Hge : 2 ^ 52 * 2 ^ c <= m * 2 ^ j).
  { assert (2 ^ 52 * 2 ^ c * q <= m * 2 ^ j * q) by (unfold N in *; nia). nia. }
  destruct (dyadic_multiple m j c Hm Hj ltac:(lia) Hge) as [w Hw].
  rewrite Hw in *.
  assert (Binary64.round_half_even N q <= w).
  { apply rhe_ceil; [lia|]. unfold N. nia. }
  nia.
Qed.

Lemma round_unit_expo (p q : Z) :
  in_unit_range p q -> unit_expo (Binary64.round p q).
Proof.
  intros Hr. destruct (round_spec p q Hr) as (s & Hs & Hb & ->).
  destruct Hr as (Hq & Hqp & Hp).
  split; cbn [Binary64.mant Binary64.expo]; [lia|].
  assert (2 ^ 52 <= Binary64.round_half_even (p * 2 ^ s) q)
    by (apply rhe_floor; lia).
  lia.
Qed.

(** [int(x)] is the integer part of the scaled value. *)
Lemma trunc_scaled52 (x : Binary64.t) :
  unit_expo x -> Binary64.trunc x = Binary64.scaled52 x / 2 ^ 52.
Proof.
  intros [He Hm]. unfold Binary64.trunc, Binary64.scaled52.
  destruct (0 <=? Binary64.expo x) eqn:E.
  - apply Z.leb_le in E. replace (Binary64.expo x) with 0 by lia.
    cbn [Z.add]. rewrite Z.pow_0_r, Z.mul_1_r. now rewrite Z.div_mul by lia.
  - apply Z.leb_gt in E.
    replace (2 ^ 52)
      with (2 ^ (- Binary64.expo x) * 2 ^ (Binary64.expo x + 52)).
    + rewrite Z.div_mul_cancel_r; [reflexivity| |];
        apply Z.pow_nonzero; lia.
    + rewrite <- Z.pow_add_r by lia. f_equal. lia.
Qed.

(** An integer below [2 ^ 53] converts exactly. *)
Lemma of_int_scaled52 (i : Z) :
  1 <= i < 2 ^ 53 ->
  Binary64.scaled52 (Binary64.of_int i) = i * 2 ^ 52
  /\ unit_expo (Binary64.of_int i).
Proof.
  intros Hi. unfold Binary64.of_int.
  assert (Hr : in_unit_range i 1) by (unfold in_unit_range; lia).
  split; [|now apply round_unit_expo].
  apply Z.le_antisymm.
  - apply round_le; [assumption|lia|lia|lia].
  - apply round_ge; [assumption|lia|lia|lia].
Qed.

Lemma mul_as_round (x y : Binary64.t) :
  unit_expo x -> unit_expo y ->
  Binary64.mul x y
  = Binary64.round (Binary64.mant x * Binary64.mant y)
                   (2 ^ (- (Binary64.expo x + Binary64.expo y))).
Proof.
  intros [Hx _] [Hy _]. unfold Binary64.mul.
  replace (Z.max 0 (Binary64.expo x + Binary64.expo y)) with 0 by lia.
  replace (Z.max 0 (- (Binary64.expo x + Binary64.expo y)))
    with (- (Binary64.expo x + Binary64.expo y)) by lia.
  now rewrite Z.pow_0_r, Z.mul_1_r.
Qed.

(** The product of two doubles whose exact product lies between one and
    [2 ^ 53]. *)
Section Product.

Variables x y : Binary64.t.
Hypothesis Hx : unit_expo x.
Hypothesis Hy : unit_expo y.
Hypothesis Hlow : 2 ^ 104 <= Binary64.scaled52 x * Binary64.scaled52 y.
Hypothesis Hhigh :
  Binary64.scaled52 x * Binary64.scaled52 y < 2 ^ 53 * 2 ^ 104.

Let e := Binary64.expo x + Binary64.expo y.

Lemma product_scaled :
  Binary64.scaled52 x * Binary64.scaled52 y
  = Binary64.mant x * Binary64.mant y * 2 ^ (e + 104)
  /\ 2 ^ (- e) * 2 ^ (e + 104) = 2 ^ 104
  /\ 0 < 2 ^ (e + 104) /\ 0 < 2 ^ (- e).
Proof.
  destruct Hx as [Hex _], Hy as [Hey _]. unfold Binary64.scaled52, e.
  repeat split.
  - replace (Binary64.expo x + Binary64.expo y + 104)
      with ((Binary64.expo x + 52) + (Binary64.expo y + 52)) by lia.
    rewrite (Z.pow_add_r 2 (Binary64.expo x + 52) (Binary64.expo y + 52))
      by lia.
    ring.
  - rewrite <- Z.pow_add_r by lia. f_equal. lia.
  - apply Z.pow_pos_nonneg; lia.
  - apply Z.pow_pos_nonneg; lia.
Qed.

Lemma product_in_unit_range :
  in_unit_range (Binary64.mant x * Binary64.mant y) (2 ^ (- e)).
Proof.
  destruct product_scaled as (H1 & H2 & H3 & H4).
  rewrite H1 in Hlow, Hhigh. unfold in_unit_range.
  split; [assumption|]. split; nia.
Qed.

Lemma mul_unit_expo : unit_expo (Binary64.mul x y).
Proof.
  rewrite mul_as_round by assumption.
  apply round_unit_expo, product_in_unit_range.
Qed.

Lemma mul_ge (m j : Z) :
  0 <= m < 2 ^ 53 -> 0 <= j ->
  m * 2 ^ j * 2 ^ 52 <= Binary64.scaled52 x * Binary64.scaled52 y ->
  m * 2 ^ j <= Binary64.scaled52 (Binary64.mul x y).
Proof.
  intros Hm Hj H. rewrite mul_as_round by assumption.
  apply round_ge; [apply product_in_unit_range|assumption|assumption|].
  destruct product_scaled as (H1 & H2 & H3 & H4). fold e.
  rewrite H1 in H.
  apply (Z.mul_le_mono_pos_r _ _ (2 ^ (e + 104))); [assumption|].
  rewrite <- (Z.mul_assoc (m * 2 ^ j)), H2.
  set (V := m * 2 ^ j) in *. set (P := Binary64.mant x * Binary64.mant y) in *.
  set (E := 2 ^ (e + 104)) in *. lia.
Qed.

Lemma mul_le (m j : Z) :
  0 <= m < 2 ^ 53 -> 0 <= j ->
  Binary64.scaled52 x * Binary64.scaled52 y <= m * 2 ^ j * 2 ^ 52 ->
  Binary64.scaled52 (Binary64.mul x y) <= m * 2 ^ j.
Proof.
  intros Hm Hj H. rewrite mul_as_round by assumption.
  apply round_le; [apply product_in_unit_range|assumption|assumption|].
  destruct product_scaled as (H1 & H2 & H3 & H4). fold e.
  rewrite H1 in H.
  apply (Z.mul_le_mono_pos_r _ _ (2 ^ (e + 104))); [assumption|].
  rewrite <- (Z.mul_assoc (m * 2 ^ j)), H2.
  set (V := m * 2 ^ j) in *. set (P := Binary64.mant x * Binary64.mant y) in *.
  set (E := 2 ^ (e + 104)) in *. lia.
Qed.

End Product.

(** The stride [n / k] of a catalog of [n] frames, [n < 2 ^ 26], for a count
    [k] with [0 < k < n], and its multiples [i * step] for [i < k]. *)
Section Stride.

Variables n k : Z.
Hypothesis Hk : 0 < k.
Hypothesis Hkn : k < n.
Hypothesis Hn : n < 2 ^ 26.

Let step := Binary64.div n k.
Let Y := Binary64.scaled52 step.

Lemma step_in_unit_range : in_unit_range n k.
Proof. unfold in_unit_range. nia. Qed.

Lemma step_unit_expo : unit_expo step.
Proof. apply round_unit_expo, step_in_unit_range. Qed.

(** The stride is at least [1 + 2 ^ -26]. *)
Lemma step_lower : 2 ^ 52 + 2 ^ 26 <= Y.
Proof.
  replace (2 ^ 52 + 2 ^ 26) with ((2 ^ 26 + 1) * 2 ^ 26) by lia.
  apply round_ge; [apply step_in_unit_range|lia|lia|]. nia.
Qed.

(** The stride is at most [n / k] rounded up to a multiple of [2 ^ -27]. *)
Lemma step_upper : Y <= (n * 2 ^ 27 / k + 1) * 2 ^ 25.
Proof.
  pose proof (Z.div_le_upper_bound (n * 2 ^ 27) k (n * 2 ^ 27) Hk ltac:(nia)).
  pose proof (Z.div_pos (n * 2 ^ 27) k ltac:(lia) Hk).
  apply round_le; [apply step_in_unit_range|lia|lia|].
  pose proof (Z.mul_succ_div_gt (n * 2 ^ 27) k Hk). nia.
Qed.

(** The exact multiples stay at least [2 ^ -27] below [n]. *)
Lemma multiples_below_n (i : Z) :
  1 <= i < k -> i * Y <= (n * 2 ^ 27 - 1) * 2 ^ 25.
Proof.
  intros Hi. pose proof step_upper as HU. pose proof step_lower as HL.
  set (U := n * 2 ^ 27 / k + 1) in *.
  assert (HU1 : k * (U - 1) <= n * 2 ^ 27).
  { pose proof (Z.mul_div_le (n * 2 ^ 27) k Hk). unfold U. lia. }
  assert (HU2 : 2 ^ 27 <= U - 1).
  { unfold U. replace (n * 2 ^ 27 / k + 1 - 1) with (n * 2 ^ 27 / k) by lia.
    apply Z.div_le_lower_bound; [lia|nia]. }
  assert ((k - 1) * U <= n * 2 ^ 27 - 1) by nia.
  assert (i * Y <= (k - 1) * (U * 2 ^ 25)) by nia.
  nia.
Qed.

Section Multiple.

Variable i : Z.
Hypothesis Hi : 1 <= i < k.

Let xi := Binary64.of_int i.

Lemma xi_facts : Binary64.scaled52 xi = i * 2 ^ 52 /\ unit_expo xi.
Proof. apply of_int_scaled52. lia. Qed.

Lemma product_low : 2 ^ 104 <= Binary64.scaled52 xi * Binary64.scaled52 step.
Proof.
  destruct xi_facts as [-> _]. pose proof step_lower. fold Y. nia.
Qed.

Lemma product_high :
  Binary64.scaled52 xi * Binary64.scaled52 step < 2 ^ 53 * 2 ^ 104.
Proof.
  destruct xi_facts as [-> _]. pose proof (multiples_below_n i Hi). fold Y. nia.
Qed.

Lemma multiple_unit_expo : unit_expo (Binary64.mul xi step).
Proof.
  apply mul_unit_expo;
    [apply xi_facts | apply step_unit_expo | apply product_low
     | apply product_high].
Qed.

Lemma multiple_ge (m j : Z) :
  0 <= m < 2 ^ 53 -> 0 <= j -> m * 2 ^ j <= i * Y ->
  m * 2 ^ j <= Binary64.scaled52 (Binary64.mul xi step).
Proof.
  intros Hm Hj H.
  apply mul_ge;
    [apply xi_facts | apply step_unit_expo | apply product_low
     | apply product_high | assumption | assumption |].
  destruct xi_facts as [-> _]. fold Y. nia.
Qed.

Lemma multiple_le (m j : Z) :
  0 <= m < 2 ^ 53 -> 0 <= j -> i * Y <= m * 2 ^ j ->
  Binary64.scaled52 (Binary64.mul xi step) <= m * 2 ^ j.
Proof.
  intros Hm Hj H.
  apply mul_le;
    [apply xi_facts | apply step_unit_expo | apply product_low
     | apply product_high | assumption | assumption |].
  destruct xi_facts as [-> _]. fold Y. nia.
Qed.

Lemma target_scaled :
  target n k i = Binary64.scaled52 (Binary64.mul xi step) / 2 ^ 52.
Proof. unfold target. apply trunc_scaled52, multiple_unit_expo. Qed.

(** A target is a valid position: the clamp to [n - 1] changes nothing. *)
Lemma target_bounds : 1 <= target n k i <= n - 1.
Proof.
  rewrite target_scaled. split.
  - apply Z.div_le_lower_bound; [lia|].
    replace (2 ^ 52 * 1) with (1 * 2 ^ 52) by lia.
    apply multiple_ge; [lia|lia|]. pose proof step_lower. fold Y. nia.
  - assert (Binary64.scaled52 (Binary64.mul xi step)
            <= (n * 2 ^ 27 - 1) * 2 ^ 25).
    { apply multiple_le; [lia|lia|]. now apply multiples_below_n. }
    assert (Binary64.scaled52 (Binary64.mul xi step) / 2 ^ 52 < n);
      [|lia].
    apply Z.div_lt_upper_bound; lia.
Qed.

(** The exact product lies less than [2 ^ -27] below the integer part of its
    rounding. *)
Lemma multiple_near_target : target n k i * 2 ^ 52 - 2 ^ 25 < i * Y.
Proof.
  pose proof target_bounds as Ht.
  destruct (Z_lt_le_dec (target n k i * 2 ^ 52 - 2 ^ 25) (i * Y)) as [|Hle];
    [assumption|exfalso].
  assert (H : Binary64.scaled52 (Binary64.mul xi step)
              <= (target n k i * 2 ^ 27 - 1) * 2 ^ 25).
  { apply multiple_le; [lia|lia|lia]. }
  pose proof target_scaled as Hs.
  pose proof (Z.mul_div_le (Binary64.scaled52 (Binary64.mul xi step)) (2 ^ 52)
                ltac:(lia)) as Hd.
  pose proof (Z.mul_succ_div_gt (Binary64.scaled52 (Binary64.mul xi step))
                (2 ^ 52) ltac:(lia)) as Hd'.
  rewrite <- Hs in Hd, Hd'. lia.
Qed.

End Multiple.

Lemma target_zero : target n k 0 = 0.
Proof. reflexivity. Qed.

(** Consecutive targets differ: the stride exceeds one by more than the
    rounding can lose. *)
Lemma target_increases (i : Z) :
  0 <= i -> i + 1 < k -> target n k i + 1 <= target n k (i + 1).
Proof.
  intros Hi Hi'.
  destruct (Z.eq_dec i 0) as [->|Hne].
  - rewrite target_zero. pose proof (target_bounds 1 ltac:(lia)). cbn. lia.
  - pose proof (multiple_near_target i ltac:(lia)) as Hnear.
    pose proof (target_bounds i ltac:(lia)) as Hb.
    rewrite (target_scaled (i + 1)) by lia.
    apply Z.div_le_lower_bound; [lia|].
    replace (2 ^ 52 * (target n k i + 1))
      with ((target n k i + 1) * 2 ^ 52) by lia.
    apply multiple_ge; [lia|lia|lia|].
    pose proof step_lower. lia.
Qed.

End Stride.

(** ** The targets of the uniform branch *)

Lemma range_In (k i : Z) : In i (range k) <-> 0 <= i < k.
Proof.
  unfold range. rewrite in_map_iff. split.
  - intros [x [<- Hx]]. apply in_seq in Hx. lia.
  - intros H. exists (Z.to_nat i). split; [lia | apply in_seq; lia].
Qed.

Lemma range_length (k : Z) : List.length (range k) = Z.to_nat k.
Proof. unfold range. now rewrite length_map, length_seq. Qed.

Lemma strongly_sorted_map_seq (f : nat -> Z) (a len : nat) :
  (forall x y, (a <= x < y)%nat -> (y < a + len)%nat -> f x < f y) ->
  StronglySorted Z.lt (map f (seq a len)).
Proof.
  revert a. induction len as [|len IH]; intros a H; simpl; constructor.
  - apply IH. intros x y Hxy Hy. apply H; lia.
  - apply Forall_forall. intros z Hz.
    apply in_map_iff in Hz as [y [<- Hy]]. apply in_seq in Hy. apply H; lia.
Qed.

Section Targets.

Variables n k : Z.
Hypothesis Hk : 0 < k.
Hypothesis Hkn : k < n.
Hypothesis Hn : n < 2 ^ 26.

Lemma target_range (i : Z) : 0 <= i < k -> 0 <= target n k i <= n - 1.
Proof.
  intros Hi. destruct (Z.eq_dec i 0) as [->|Hne].
  - rewrite target_zero. lia.
  - pose proof (target_bounds n k Hk Hkn Hn i ltac:(lia)). lia.
Qed.

Lemma target_lt_gap (d : nat) (i : Z) :
  0 <= i -> i + 1 + Z.of_nat d < k ->
  target n k i < target n k (i + 1 + Z.of_nat d).
Proof.
  induction d as [|d IH]; intros Hi Hj.
  - replace (i + 1 + Z.of_nat 0) with (i + 1) by lia.
    pose proof (target_increases n k Hk Hkn Hn i Hi ltac:(lia)). lia.
  - specialize (IH Hi ltac:(lia)).
    pose proof (target_increases n k Hk Hkn Hn (i + 1 + Z.of_nat d)
                  ltac:(lia) ltac:(lia)) as Hs.
    replace (i + 1 + Z.of_nat (S d)) with (i + 1 + Z.of_nat d + 1) by lia.
    lia.
Qed.

Lemma target_lt (i j : Z) :
  0 <= i -> i < j -> j < k -> target n k i < target n k j.
Proof.
  intros Hi Hij Hj.
  replace j with (i + 1 + Z.of_nat (Z.to_nat (j - i - 1))) by lia.
  apply target_lt_gap; lia.
Qed.

Lemma selected_indices_targets :
  selected_indices n k = map (target n k) (range k).
Proof.
  unfold selected_indices. apply map_ext_in. intros i Hi.
  apply range_In in Hi. pose proof (target_range i Hi). unfold target in *. lia.
Qed.

Lemma selected_indices_increasing : StronglySorted Z.lt (selected_indices n k).
Proof.
  rewrite selected_indices_targets. unfold range. rewrite map_map.
  apply strongly_sorted_map_seq. intros x y Hxy Hy. apply target_lt; lia.
Qed.

Lemma selected_indices_in_range :
  Forall (fun t => 0 <= t < n) (selected_indices n k).
Proof.
  rewrite selected_indices_targets. apply Forall_forall. intros t Ht.
  apply in_map_iff in Ht as [i [<- Hi]]. apply range_In in Hi.
  pose proof (target_range i Hi). lia.
Qed.

Lemma selected_indices_length :
  List.length (selected_indices n k) = Z.to_nat k.
Proof. unfold selected_indices. now rewrite length_map, range_length. Qed.

End Targets.

(** ** The loop of the uniform branch *)

Lemma mem_Z_In (x : Z) (l : list Z) : mem_Z x l = true <-> In x l.
Proof.
  unfold mem_Z. rewrite existsb_exists. split.
  - intros [y [Hy Heq]]. apply Z.eqb_eq in Heq. now subst.
  - intros H. exists x. split; [assumption | apply Z.eqb_refl].
Qed.

Lemma getitem_in_range (l : list string) (i : Z) :
  0 <= i < Z.of_nat (List.length l) ->
  getitem l i = Ok (nth (Z.to_nat i) l EmptyString).
Proof.
  intros H. unfold getitem.
  destruct (0 <=? i) eqn:E1; [|apply Z.leb_gt in E1; lia].
  destruct (i <? Z.of_nat (List.length l)) eqn:E2; [reflexivity|].
  apply Z.ltb_ge in E2. lia.
Qed.

(** On targets that increase strictly and lie inside the catalog, with every
    index seen so far below them, the loop never finds a target in [seen]: it
    appends the name at each target and leaves the ghost flag as it was. *)
Lemma uniform_loop_increasing (frame_names : list string) (targets : list Z)
      (st : loop_state) :
  StronglySorted Z.lt targets ->
  Forall (fun t => 0 <= t < Z.of_nat (List.length frame_names)) targets ->
  (forall s t, In s (seen st) -> In t targets -> s < t) ->
  uniform_loop frame_names targets st
  = Ok (mkLoop (rev targets ++ seen st)
               (selected st
                ++ map (fun t => nth (Z.to_nat t) frame_names EmptyString)
                       targets)
               (collided st)).
Proof.
  revert st. induction targets as [|t targets IH]; intros st Hs Hr Hseen.
  - cbn. rewrite app_nil_r. now destruct st.
  - apply StronglySorted_inv in Hs as [Hs Ht].
    inversion Hr as [|? ? Hrt Hr']; subst.
    cbn [uniform_loop].
    assert (Hmem : mem_Z t (seen st) = false).
    { destruct (mem_Z t (seen st)) eqn:E; [|reflexivity].
      apply mem_Z_In in E. specialize (Hseen t t E (or_introl eq_refl)). lia. }
    rewrite Hmem, (getitem_in_range _ _ Hrt), orb_false_r.
    rewrite IH; cbn [seen selected collided]; try assumption.
    + f_equal. f_equal.
      * cbn [rev]. now rewrite <- app_assoc.
      * now rewrite <- app_assoc.
    + intros s u [<-|Hin] Hu.
      * rewrite Forall_forall in Ht. now apply Ht.
      * apply Hseen; [assumption | now right].
Qed.

Lemma uniform_select_spec (frame_names : list string) (k : Z) :
  0 < k ->
  k < Z.of_nat (List.length frame_names) ->
  Z.of_nat (List.length frame_names) < 2 ^ 26 ->
  uniform_select frame_names k
  = Ok (mkLoop (rev (selected_indices (Z.of_nat (List.length frame_names)) k))
               (names_at frame_names
                  (selected_indices (Z.of_nat (List.length frame_names)) k))
               false).
Proof.
  intros Hk Hkn Hn. unfold uniform_select.
  destruct (k =? 0) eqn:E; [apply Z.eqb_eq in E; lia|].
  rewrite uniform_loop_increasing.
  - cbn [loop_init seen selected collided]. now rewrite app_nil_r.
  - now apply selected_indices_increasing.
  - now apply selected_indices_in_range.
  - intros s t [].
Qed.

Lemma uniform_select_negative (frame_names : list string) (k : Z) :
  k < 0 -> uniform_select frame_names k = Ok loop_init.
Proof.
  intros Hk. unfold uniform_select, selected_indices, range.
  destruct (k =? 0) eqn:E; [apply Z.eqb_eq in E; lia|].
  replace (Z.to_nat k) with 0%nat by lia. reflexivity.
Qed.



(** ** The count-based branches of the selector *)

Lemma catalog_names_length (frames : list frame) :
  List.length (catalog_names frames) = List.length frames.
Proof. unfold catalog_names. apply length_map. Qed.

Lemma uniform_select_no_collision (frames : list frame) (k : Z)
      (st : loop_state) :
  Z.of_nat (List.length frames) < 2 ^ 26 ->
  k < Z.of_nat (List.length frames) ->
  uniform_select (catalog_names frames) k = Ok st ->
  collided st = false
  /\ selected st
     = names_at (catalog_names frames)
                (selected_indices (Z.of_nat (List.length frames)) k)
  /\ (0 < k ->
      StronglySorted Z.lt (selected_indices (Z.of_nat (List.length frames)) k)
      /\ Forall (fun t => 0 <= t < Z.of_nat (List.length frames))
                (selected_indices (Z.of_nat (List.length frames)) k)).
Proof.
  intros Hn Hkn Hst.
  destruct (Z.lt_trichotomy k 0) as [Hneg|[->|Hpos]].
  - rewrite uniform_select_negative in Hst by assumption.
    inversion Hst; subst st. cbn. unfold selected_indices, range.
    replace (Z.to_nat k) with 0%nat by lia. split; [reflexivity|].
    split; [reflexivity | lia].
  - discriminate.
  - rewrite uniform_select_spec in Hst;
      rewrite ?catalog_names_length; try assumption.
    inversion Hst; subst st. cbn [collided selected].
    rewrite catalog_names_length.
    split; [reflexivity|]. split; [reflexivity|]. intros _.
    split; [now apply selected_indices_increasing
           | now apply selected_indices_in_range].
Qed.

Section CountFacts.

Variable sample_positions : Z -> nat -> nat -> list nat.

#[local] Abbreviation choose := (_choose_views sample_positions).

Lemma choose_uniform_branch (frames : list frame) (k : Z)
      (indices : option (list Z)) (names : option (list string))
      (strategy : string) (seed : option Z) (entropy : Z) :
  takes_uniform_branch frames (Some k) indices names strategy = true ->
  choose frames (Some k) indices names strategy seed entropy
  = match uniform_select (catalog_names frames) k with
    | Ok st => Ok (selected st)
    | Raise e => Raise e
    end.
Proof.
  unfold takes_uniform_branch, _choose_views.
  destruct (truthy_list names); [discriminate|].
  destruct (truthy_list indices); [discriminate|].
  fold (catalog_names frames). rewrite catalog_names_length.
  destruct (Z.of_nat (List.length frames) <=? k); [discriminate|].
  destruct (String.eqb strategy "random"); [discriminate|]. reflexivity.
Qed.

(** With no count, or with a positive one, the selector returns: the
    exceptions of the count-based branches need a count of zero or below. *)
Lemma selector_returns_on_positive_counts
      (frames : list frame) (view_count : option Z)
      (indices : option (list Z)) (names : option (list string))
      (strategy : string) (seed : option Z) (entropy : Z) :
  Z.of_nat (List.length frames) < 2 ^ 26 ->
  match view_count with Some k => 0 < k | None => True end ->
  is_ok (choose frames view_count indices names strategy seed entropy) = true.
Proof.
  intros Hn Hk. unfold _choose_views.
  destruct (truthy_list names); [reflexivity|].
  destruct (truthy_list indices); [reflexivity|].
  destruct view_count as [k|]; [|reflexivity].
  rewrite catalog_names_length.
  destruct (Z.of_nat (List.length frames) <=? k) eqn:Ek; [reflexivity|].
  apply Z.leb_gt in Ek.
  destruct (String.eqb strategy "random").
  - unfold sample. rewrite catalog_names_length.
    destruct (0 <=? Z.min k (Z.of_nat (List.length frames))) eqn:E1;
      [|apply Z.leb_gt in E1; lia].
    destruct (Z.min k (Z.of_nat (List.length frames))
              <=? Z.of_nat (List.length frames)) eqn:E2;
      [reflexivity | apply Z.leb_gt in E2; lia].
  - pose proof (uniform_select_spec (catalog_names frames) k Hk) as Hs.
    rewrite catalog_names_length in Hs. now rewrite (Hs Ek Hn).
Qed.

(** C4, as the code has it. For a catalog of fewer than [2 ^ 26] frames and a
    call with no usable names or indices: a count that is at least the
    catalog size never reaches the uniform branch, the whole catalog comes
    back; whenever the uniform loop runs, the test [idx in seen] never
    succeeds; and for [0 < view_count < len(catalog)] the targets increase
    strictly inside the catalog and the selector returns the names at these
    [view_count] positions. *)
Theorem uniform_branch_never_collides
        (frames : list frame) (k : Z) (indices : option (list Z))
        (names : option (list string)) (seed : option Z) (entropy : Z) :
  Z.of_nat (List.length frames) < 2 ^ 26 ->
  truthy_list names = false ->
  truthy_list indices = false ->
  (Z.of_nat (List.length frames) <= k ->
   choose frames (Some k) indices names "uniform" seed entropy
   = Ok (catalog_names frames))
  /\ (forall st,
         k < Z.of_nat (List.length frames) ->
         uniform_select (catalog_names frames) k = Ok st ->
         collided st = false)
  /\ (0 < k < Z.of_nat (List.length frames) ->
      choose frames (Some k) indices names "uniform" seed entropy
      = Ok (names_at (catalog_names frames)
                     (selected_indices (Z.of_nat (List.length frames)) k))
      /\ List.length (selected_indices (Z.of_nat (List.length frames)) k)
         = Z.to_nat k
      /\ StronglySorted Z.lt
           (selected_indices (Z.of_nat (List.length frames)) k)
      /\ Forall (fun t => 0 <= t < Z.of_nat (List.length frames))
                (selected_indices (Z.of_nat (List.length frames)) k)).
Proof.
  intros Hn Hnames Hindices. split; [|split].
  - intros Hk. unfold _choose_views. rewrite Hnames, Hindices.
    fold (catalog_names frames). rewrite catalog_names_length.
    destruct (Z.of_nat (List.length frames) <=? k) eqn:E; [reflexivity|].
    apply Z.leb_gt in E. lia.
  - intros st Hk Hst.
    now destruct (uniform_select_no_collision frames k st Hn Hk Hst).
  - intros [Hk0 Hk].
    rewrite choose_uniform_branch.
    + pose proof (uniform_select_spec (catalog_names frames) k Hk0) as Hs.
      rewrite catalog_names_length in Hs. rewrite (Hs Hk Hn).
      cbn [selected]. split; [reflexivity|].
      split; [apply selected_indices_length|].
      split; [now apply selected_indices_increasing
             | now apply selected_indices_in_range].
    + unfold takes_uniform_branch. rewrite Hnames, Hindices.
      destruct (Z.of_nat (List.length frames) <=? k) eqn:E; [|reflexivity].
      apply Z.leb_le in E. lia.
Qed.



End CountFacts.

Lemma first_positions_ok : sampler_ok first_positions.
Proof.
  intros state n k Hk. unfold first_positions. split.
  - apply seq_NoDup.
  - apply Forall_forall. intros j Hj. apply in_seq in Hj. lia.
Qed.

(** The end-to-end scenario: ten frames and a count of three select
    positions 0, 3 and 6; the training manifest keeps these three frames and
    the test manifest keeps its five. *)
Example end_to_end_scenario :
  exists d out,
    create_view_subset first_positions example_raw None (Some 3) None ".png"
                       true 0
    = (d, Ok out)
    /\ selected_views out = ["r_0"; "r_3"; "r_6"]
    /\ files out = [("transforms_train.json", 3); ("transforms_test.json", 5)]
    /\ dict_get d "transforms_test.json" = Some (JsonFile example_test).
Proof.
  eexists. eexists. split; [vm_compute; reflexivity|].
  repeat split.
Qed.

(** The double arithmetic differs from exact division: for thirty frames and
    a count of twenty-two the twelfth target is 14, not [11 * 30 / 22 = 15]. *)
Example float_target_differs_from_exact_quotient :
  target 30 22 11 = 14 /\ 11 * 30 / 22 = 15.
Proof. split; reflexivity. Qed.

(** On every catalog of fewer than 24 frames the model's targets are the
    ones the kernel's binary64 arithmetic gives. *)
Example targets_agree_with_kernel_floats :
  all_targets_below 24 (fun n k i => target n k i =? kernel_target n k i)
  = true.
Proof. vm_compute. reflexivity. Qed.

(** ** Witnesses and counterexamples *)


(** C2, against the claim: a call on a raw directory without the training
    manifest raises, and the subset directory an earlier run had filled is
    empty afterwards. *)
Lemma missing_train_manifest_destroys_subset :
  dict_get example_raw_without_train train_name = None
  /\ create_view_subset first_positions example_raw_without_train
                        (Some example_stale_subset) (Some 3) None ".png"
                        true 0
     = ([], Raise FileNotFoundError)
  /\ ([] : dir) <> example_stale_subset.
Proof.
  split; [reflexivity|]. split; [reflexivity|]. discriminate.
Qed.

Lemma missing_train_manifest_witness :
  create_view_subset first_positions example_raw_without_train
                     (Some example_stale_subset) (Some 3) None ".png" true 0
  = ([], Raise FileNotFoundError).
Proof.
  apply (missing_train_manifest_fails_after_reset
           first_positions example_raw_without_train
           (Some example_stale_subset) (Some 3) None ".png" true 0).
  reflexivity.
Defined.

(** C4, against the claim: on no catalog of fewer than [2 ^ 26] frames does a
    call take the uniform branch, find a target in [seen] and return fewer
    than [view_count] distinct names. *)
Lemma no_catalog_triggers_collision :
  ~ exists frames view_count,
      Z.of_nat (List.length frames) < 2 ^ 26
      /\ collision_underfills frames view_count.
Proof.
  intros [frames [k [Hn [Hbranch [st [Hst [Hcollided _]]]]]]].
  unfold takes_uniform_branch in Hbranch. cbn [truthy_list negb andb] in Hbranch.
  destruct (Z.of_nat (List.length frames) <=? k) eqn:E; [discriminate|].
  apply Z.leb_gt in E.
  destruct (uniform_select_no_collision frames k st Hn E Hst) as [Hc _].
  congruence.
Qed.

Lemma uniform_branch_witness :
  _choose_views first_positions example_train_frames (Some 3) None None
                "uniform" None 0
  = Ok ["r_0"; "r_3"; "r_6"].
Proof.
  exact (proj1 (proj2 (proj2 (uniform_branch_never_collides
                                first_positions example_train_frames 3 None
                                None None 0 ltac:(cbn; lia) eq_refl eq_refl))
                      ltac:(cbn; lia))).
Defined.



Lemma indices_branch_witness :
  _choose_views first_positions
                [example_frame "./train/r_0"; example_frame "./train/r_1";
                 example_frame "./train/r_2"; example_frame "./train/r_3";
                 example_frame "./train/r_4"]
                (Some 3) (Some [0; 4; 10; -1]) None "uniform" None 0
  = Ok ["r_0"; "r_4"].
Proof.
  exact (proj1 (indices_branch_maps_valid_positions
                  first_positions
                  [example_frame "./train/r_0"; example_frame "./train/r_1";
                   example_frame "./train/r_2"; example_frame "./train/r_3";
                   example_frame "./train/r_4"]
                  (Some 3) 0 [4; 10; -1] None "uniform" None 0 eq_refl)).
Defined.


(** C10, against the claim: a count of zero with a names list does not
    select the whole catalog; the names decide. *)
Lemma zero_count_with_names_is_not_take_all :
  effective_view_count (Some 0)
    (mkSelection None (Some ["r_7"]) None None None) = None
  /\ exists d out,
      create_view_subset first_positions example_raw None (Some 0)
                         (Some (mkSelection None (Some ["r_7"]) None None None))
                         ".png" true 0
      = (d, Ok out)
      /\ selected_views out = ["r_7"]
      /\ selected_views out <> catalog_names example_train_frames.
Proof.
  split; [reflexivity|].
  eexists. eexists. split; [vm_compute; reflexivity|].
  split; [reflexivity | discriminate].
Qed.

Lemma zero_view_count_witness :
  _choose_views first_positions example_train_frames
                (effective_view_count (Some 0) no_selection) None None
                "uniform" None 0
  = Ok (catalog_names example_train_frames).
Proof.
  exact (proj1 (proj2 (proj2 (zero_view_count_is_treated_as_absent
                                first_positions example_raw None None ".png"
                                true 0 example_train example_train_frames
                                eq_refl eq_refl eq_refl eq_refl))
                      eq_refl)).
Defined.

(** ** The asset copier *)





(** ** The manifest loop *)

Lemma retained_of_loaded (raw : dir) (full : bool) (sel : list string)
      (name : string) (data : manifest) (all_frames : list frame) :
  _load_json raw name = Ok data ->
  get_frames data = Ok all_frames ->
  retained_of raw full sel name = retained_frames full sel name all_frames.
Proof.
  intros Hl Hg. unfold retained_of, manifest_frames. now rewrite Hl, Hg.
Qed.


(** What the loop has accumulated when it ends without raising. *)
Lemma assemble_loop_ok (raw : dir) (full : bool) (sel : list string)
      (names : list string) (acc acc' : assembly) (d d' : dir) :
  assemble_loop raw full sel names acc d = (d', Ok acc') ->
  frames_to_copy acc'
  = frames_to_copy acc ++ retained_over raw full sel names
  /\ counts acc'
     = fold_left
         (fun c name =>
            dict_set c name
                     (Z.of_nat (List.length (retained_of raw full sel name))))
         names (counts acc).
Proof.
  revert acc d. induction names as [|name names IH]; intros acc d Hrun.
  - cbn in Hrun. inversion Hrun; subst. cbn. now rewrite app_nil_r.
  - cbn [assemble_loop] in Hrun. unfold bind in Hrun.
    rewrite assemble_one_unfold in Hrun.
    destruct (_load_json raw name) as [data|e] eqn:El; [|discriminate].
    destruct (get_frames data) as [all_frames|e] eqn:Eg; [|discriminate].
    cbv beta iota zeta in Hrun. destruct (IH _ _ Hrun) as [H1 H2].
    cbn [frames_to_copy counts] in H1, H2.
    unfold retained_over in *. cbn [flat_map fold_left].
    rewrite (retained_of_loaded raw full sel name data all_frames El Eg).
    split; [now rewrite H1, <- app_assoc | exact H2].
Qed.

Lemma dict_set_fresh {V : Type} (d : list (string * V)) (key : string) (v : V) :
  ~ In key (map fst d) -> dict_set d key v = d ++ [(key, v)].
Proof.
  induction d as [|[k w] d IH]; intros H; [reflexivity|].
  cbn [dict_set]. destruct (String.eqb k key) eqn:E.
  - apply String.eqb_eq in E. subst. exfalso. apply H. now left.
  - cbn. f_equal. apply IH. intros Hin. apply H. now right.
Qed.

(** Recording one value per name of a duplicate-free list in an empty
    dictionary gives the names in order, each with its value. *)
Lemma fold_dict_set_distinct {V : Type} (f : string -> V)
      (names done : list string) :
  NoDup (done ++ names) ->
  fold_left (fun c name => dict_set c name (f name)) names
            (map (fun name => (name, f name)) done)
  = map (fun name => (name, f name)) (done ++ names).
Proof.
  revert done. induction names as [|name names IH]; intros done Hnd.
  - cbn. now rewrite app_nil_r.
  - cbn [fold_left]. rewrite dict_set_fresh.
    + replace (map (fun n => (n, f n)) done ++ [(name, f name)])
        with (map (fun n => (n, f n)) (done ++ [name]))
        by (now rewrite map_app).
      rewrite IH; rewrite <- app_assoc; [reflexivity | exact Hnd].
    + rewrite map_map. cbn [fst]. rewrite map_id.
      apply NoDup_remove_2 in Hnd. intros Hin. apply Hnd.
      apply in_or_app. now left.
Qed.

Lemma transform_files_NoDup (raw : dir) : NoDup (transform_files raw).
Proof.
  unfold transform_files, held_out_names. cbn [filter].
  destruct (dict_get raw "transforms_val.json");
    destruct (dict_get raw "transforms_test.json");
    repeat (constructor; [cbn; intuition discriminate|]); constructor.
Qed.

(** ** What a call of the assembler leaves behind *)

Section SubsetContents.

Variable sample_positions : Z -> nat -> nat -> list nat.

#[local] Abbreviation create := (create_view_subset sample_positions).

(** The steps of a call that returns. *)
Lemma create_view_subset_ok_steps (raw : dir) (before : option dir)
      (view_count : option Z) (sel : option selection) (extension : string)
      (full : bool) (entropy : Z) (d : dir) (out : summary) :
  create raw before view_count sel extension full entropy = (d, Ok out) ->
  exists acc d1,
    selector_call sample_positions (manifest_frames raw train_name) view_count
                  sel entropy
    = Ok (selected_views out)
    /\ assemble_loop raw full (selected_views out) (transform_files raw)
                     (mkAssembly [] []) []
       = (d1, Ok acc)
    /\ _copy_images (frames_to_copy acc) raw extension d1 = (d, Ok tt)
    /\ files out = counts acc.
Proof.
  unfold create_view_subset.
  replace (match before with Some _ => ([] : dir) | None => [] end)
    with ([] : dir) by (destruct before; reflexivity).
  rewrite build_subset_unfold. unfold manifest_frames.
  destruct (dict_get raw train_name); [|discriminate].
  destruct (_load_json raw train_name) as [train|e]; [|discriminate].
  destruct (get_frames train) as [base|e]; [|discriminate].
  destruct (selector_call _ _ _ _ _) as [views|e]; [|discriminate].
  destruct (assemble_loop _ _ _ _ _ _) as [d1 [acc|e]] eqn:Ea; [|discriminate].
  destruct (_copy_images _ _ _ _) as [d2 [[]|e]] eqn:Ec; [|discriminate].
  intros H. inversion H; subst. cbn [selected_views files].
  exists acc, d1. now repeat split.
Qed.

(** The summary of a call that returns lists the manifests handled, in the
    order train, val, test, each with the number of frames kept of it. *)
Theorem summary_counts_retained_frames
        (raw : dir) (before : option dir) (view_count : option Z)
        (sel : option selection) (extension : string) (full : bool)
        (entropy : Z) (d : dir) (out : summary) :
  create raw before view_count sel extension full entropy = (d, Ok out) ->
  files out
  = map (fun name =>
           (name,
            Z.of_nat (List.length
                        (retained_of raw full (selected_views out) name))))
        (transform_files raw).
Proof.
  intros Hrun.
  destruct (create_view_subset_ok_steps _ _ _ _ _ _ _ _ _ Hrun)
    as (acc & d1 & _ & Hloop & _ & ->).
  destruct (assemble_loop_ok _ _ _ _ _ _ _ _ Hloop) as [_ ->].
  cbn [counts].
  exact (fold_dict_set_distinct
           (fun name =>
              Z.of_nat (List.length
                          (retained_of raw full (selected_views out) name)))
           (transform_files raw) [] (transform_files_NoDup raw)).
Qed.




End SubsetContents.

(** ** Where the selected names come from *)

Lemma getitem_In (l : list string) (i : Z) (s : string) :
  getitem l i = Ok s -> In s l.
Proof.
  unfold getitem.
  destruct ((0 <=? i) && (i <? Z.of_nat (List.length l))) eqn:E1.
  - apply andb_prop in E1 as [H1 H2]. apply Z.leb_le in H1.
    apply Z.ltb_lt in H2. intros H. inversion H. apply nth_In. lia.
  - destruct ((- Z.of_nat (List.length l) <=? i) && (i <? 0)) eqn:E2;
      [|discriminate].
    apply andb_prop in E2 as [H1 H2]. apply Z.leb_le in H1.
    apply Z.ltb_lt in H2. intros H. inversion H. apply nth_In. lia.
Qed.

Lemma uniform_loop_incl (frame_names : list string) (targets : list Z)
      (st st' : loop_state) :
  uniform_loop frame_names targets st = Ok st' ->
  incl (selected st) frame_names ->
  incl (selected st') frame_names.
Proof.
  revert st. induction targets as [|t targets IH]; intros st Hrun Hincl.
  - cbn in Hrun. now inversion Hrun; subst.
  - cbn [uniform_loop] in Hrun. cbv zeta in Hrun.
    destruct (getitem frame_names _) as [name|e] eqn:Eg; [|discriminate].
    apply (IH _ Hrun). cbn [selected].
    apply incl_app; [assumption|].
    intros x [<-|[]]. now apply getitem_In in Eg.
Qed.

Section SelectorMore.

Variable sample_positions : Z -> nat -> nat -> list nat.

#[local] Abbreviation choose := (_choose_views sample_positions).

Lemma choose_views_incl_catalog
        (frames : list frame) (view_count : option Z)
        (indices : option (list Z)) (names : option (list string))
        (strategy : string) (seed : option Z) (entropy : Z)
        (out : list string) :
  sampler_ok sample_positions ->
  truthy_list names = false ->
  choose frames view_count indices names strategy seed entropy = Ok out ->
  incl out (catalog_names frames).
Proof.
  intros Hsp Hnames. unfold _choose_views. rewrite Hnames.
  destruct (truthy_list indices).
  { intros H. inversion H; subst out. rewrite select_by_indices_spec.
    intros x Hx. apply (proj1 (keep_first_In _ _)) in Hx.
    apply in_map_iff in Hx.
    destruct Hx as [i [<- Hi]]. apply filter_In in Hi as [_ Hi].
    unfold valid_position in Hi. apply andb_prop in Hi as [H1 H2].
    apply Z.leb_le in H1. apply Z.ltb_lt in H2. apply nth_In. lia. }
  destruct view_count as [k|]; [|intros H; inversion H; apply incl_refl].
  destruct (Z.of_nat (List.length (catalog_names frames)) <=? k);
    [intros H; inversion H; apply incl_refl|].
  destruct (String.eqb strategy "random").
  - unfold sample.
    destruct ((0 <=? Z.min k (Z.of_nat (List.length (catalog_names frames))))
              && (Z.min k (Z.of_nat (List.length (catalog_names frames)))
                  <=? Z.of_nat (List.length (catalog_names frames)))) eqn:E;
      [|discriminate].
    apply andb_prop in E as [H1 H2]. apply Z.leb_le in H1, H2.
    intros H. inversion H; subst out. intros x Hx.
    apply in_map_iff in Hx. destruct Hx as [j [<- Hj]].
    destruct (Hsp (generator_seed seed entropy)
                  (List.length (catalog_names frames))
                  (Z.to_nat (Z.min k (Z.of_nat (List.length
                                                  (catalog_names frames)))))
                  ltac:(lia)) as [_ Hlt].
    rewrite Forall_forall in Hlt. apply nth_In. now apply Hlt.
  - destruct (uniform_select (catalog_names frames) k) as [st|e] eqn:Eu;
      [|discriminate].
    intros H. inversion H; subst out. unfold uniform_select in Eu.
    destruct (k =? 0); [discriminate|].
    apply (uniform_loop_incl _ _ _ _ Eu). intros x [].
Qed.

(** Unless a names list is given, every name the selector returns is the
    normalised name of a frame of the catalog. *)
Theorem selected_names_are_catalog_names
        (frames : list frame) (view_count : option Z)
        (indices : option (list Z)) (names : option (list string))
        (strategy : string) (seed : option Z) (entropy : Z)
        (out : list string) :
  sampler_ok sample_positions ->
  truthy_list names = false ->
  choose frames view_count indices names strategy seed entropy = Ok out ->
  forall name, In name out -> In name (catalog_names frames).
Proof.
  intros Hsp Hnames Hout name Hin.
  exact (choose_views_incl_catalog frames view_count indices names strategy
           seed entropy out Hsp Hnames Hout name Hin).
Qed.

(** A negative count with a strategy other than ["random"] selects nothing:
    the selector returns the empty list, whatever the catalog. *)
Theorem negative_count_selects_nothing
        (frames : list frame) (k : Z) (indices : option (list Z))
        (names : option (list string)) (strategy : string)
        (seed : option Z) (entropy : Z) :
  k < 0 ->
  truthy_list names = false ->
  truthy_list indices = false ->
  String.eqb strategy "random" = false ->
  choose frames (Some k) indices names strategy seed entropy = Ok [].
Proof.
  intros Hk Hnames Hindices Hstrategy. unfold _choose_views.
  rewrite Hnames, Hindices, Hstrategy.
  destruct (Z.of_nat (List.length (catalog_names frames)) <=? k) eqn:E;
    [apply Z.leb_le in E; lia|].
  now rewrite uniform_select_negative.
Qed.

End SelectorMore.

(** ** The stride against the exact quotient *)

(** Rounding to the nearest integer moves a quotient by at most one half. *)
Lemma rhe_half (num den : Z) :
  0 < den ->
  - den <= 2 * (Binary64.round_half_even num den * den - num) <= den.
Proof.
  intros Hd. unfold Binary64.round_half_even.
  pose proof (Z.div_mod num den ltac:(lia)) as Hdm.
  pose proof (Z.mod_pos_bound num den Hd) as Hm.
  destruct (2 * (num mod den) <? den) eqn:E1.
  - apply Z.ltb_lt in E1. nia.
  - apply Z.ltb_ge in E1.
    destruct (den <? 2 * (num mod den)) eqn:E2.
    + apply Z.ltb_lt in E2. nia.
    + apply Z.ltb_ge in E2. destruct (Z.even (num / den)); nia.
Qed.

(** The stride [n / k] is within half a unit in the last place of the exact
    quotient: [| step - n / k | <= (n / k) * 2 ^ -53]. *)
Lemma step_tight (n k : Z) :
  in_unit_range n k ->
  - n <= 2 * (Binary64.scaled52 (Binary64.div n k) * k - n * 2 ^ 52) <= n.
Proof.
  intros Hr. unfold Binary64.div.
  destruct (round_spec n k Hr) as (s & Hs & Hb & ->).
  destruct Hr as (Hk & Hkn & Hn).
  unfold Binary64.scaled52. cbn [Binary64.mant Binary64.expo].
  pose proof (rhe_half (n * 2 ^ s) k Hk) as Hh.
  set (M := Binary64.round_half_even (n * 2 ^ s) k) in *.
  set (c := - s + 52). assert (Hc : 0 <= c <= 52) by (unfold c; lia).
  assert (HC : 0 < 2 ^ c) by (apply Z.pow_pos_nonneg; lia).
  assert (HS : 0 < 2 ^ s) by (apply Z.pow_pos_nonneg; lia).
  assert (HSC : 2 ^ s * 2 ^ c = 2 ^ 52).
  { rewrite <- Z.pow_add_r by lia. f_equal. unfold c. lia. }
  assert (HkC : k * 2 ^ c <= n).
  { assert (k * 2 ^ c * 2 ^ s <= n * 2 ^ s) by nia. nia. }
  assert (Heq : M * 2 ^ c * k - n * 2 ^ 52 = (M * k - n * 2 ^ s) * 2 ^ c)
    by (rewrite <- HSC; ring).
  rewrite Heq. nia.
Qed.

Section ExactQuotient.

Variables n k : Z.
Hypothesis Hk : 0 < k.
Hypothesis Hkn : k < n.
Hypothesis Hn : n < 2 ^ 26.

(** The target computed in binary64 is the exact quotient [i * n / k] or one
    less, and it is the exact quotient whenever [k] does not divide
    [i * n]. *)
Lemma target_near_quotient (i : Z) :
  0 <= i < k ->
  i * n / k - 1 <= target n k i <= i * n / k
  /\ ((i * n) mod k <> 0 -> target n k i = i * n / k).
Proof.
  intros Hi. destruct (Z.eq_dec i 0) as [->|Hne].
  { rewrite target_zero. cbn [Z.mul]. rewrite Z.div_0_l, Zmod_0_l by lia. lia. }
  assert (Hi1 : 1 <= i < k) by lia.
  pose proof (step_tight n k (step_in_unit_range n k Hk Hkn Hn)) as Ht.
  set (Y := Binary64.scaled52 (Binary64.div n k)) in *.
  pose proof (Z.div_mod (i * n) k ltac:(lia)) as Hdm.
  pose proof (Z.mod_pos_bound (i * n) k Hk) as Hm.
  set (E := i * n / k) in *. set (r := (i * n) mod k) in *.
  assert (HE : 0 <= E < n).
  { split; [apply Z.div_pos; nia|]. apply Z.div_lt_upper_bound; nia. }
  assert (Hin : i * n < 2 ^ 52) by nia.
  rewrite (target_scaled n k Hk Hkn Hn i Hi1).
  set (X := Binary64.scaled52
              (Binary64.mul (Binary64.of_int i) (Binary64.div n k))).
  (* the product rounds to at most E + 1 - 2 ^ -27 *)
  assert (Hup : X <= ((E + 1) * 2 ^ 27 - 1) * 2 ^ 25).
  { apply (multiple_le n k Hk Hkn Hn i Hi1); [lia|lia|]. fold Y.
    apply (Z.mul_le_mono_pos_r _ _ (2 * k)); [lia|]. nia. }
  (* and to at least E - 2 ^ -27, to at least E when the quotient is not
     an integer *)
  assert (Hlow : 1 <= E -> (E * 2 ^ 27 - 1) * 2 ^ 25 <= X).
  { intros HE1. apply (multiple_ge n k Hk Hkn Hn i Hi1); [lia|lia|]. fold Y.
    apply (Z.mul_le_mono_pos_r _ _ (2 * k)); [lia|]. nia. }
  assert (Hexact : r <> 0 -> E * 2 ^ 52 <= X).
  { intros Hr. apply (multiple_ge n k Hk Hkn Hn i Hi1); [lia|lia|]. fold Y.
    apply (Z.mul_le_mono_pos_r _ _ (2 * k)); [lia|]. nia. }
  assert (H0 : 0 <= X).
  { replace 0 with (0 * 2 ^ 0) by lia.
    apply (multiple_ge n k Hk Hkn Hn i Hi1); [lia|lia|]. fold Y. nia. }
  assert (Hle : X / 2 ^ 52 <= E).
  { assert (X / 2 ^ 52 < E + 1); [|lia]. apply Z.div_lt_upper_bound; lia. }
  assert (Hge : E - 1 <= X / 2 ^ 52).
  { destruct (Z_lt_le_dec E 1).
    - assert (0 <= X / 2 ^ 52) by (apply Z.div_pos; lia). lia.
    - apply Z.div_le_lower_bound; [lia|]. specialize (Hlow ltac:(lia)). lia. }
  split; [lia|]. intros Hr. specialize (Hexact Hr).
  assert (E <= X / 2 ^ 52) by (apply Z.div_le_lower_bound; lia). lia.
Qed.

(** When the count divides the catalog size the stride is an integer and the
    targets are its multiples. *)
Lemma target_of_divisible (m i : Z) :
  n = k * m -> 0 <= i < k -> target n k i = i * m.
Proof.
  intros Hm Hi. destruct (Z.eq_dec i 0) as [->|Hne].
  { rewrite target_zero. lia. }
  assert (Hi1 : 1 <= i < k) by lia.
  assert (Hm2 : 2 <= m) by nia.
  assert (HY : Binary64.scaled52 (Binary64.div n k) = m * 2 ^ 52).
  { unfold Binary64.div. apply Z.le_antisymm.
    - apply round_le; [apply (step_in_unit_range n k Hk Hkn Hn)|nia|lia|nia].
    - apply round_ge; [apply (step_in_unit_range n k Hk Hkn Hn)|nia|lia|nia]. }
  rewrite (target_scaled n k Hk Hkn Hn i Hi1).
  assert (HX : Binary64.scaled52
                 (Binary64.mul (Binary64.of_int i) (Binary64.div n k))
               = (i * m) * 2 ^ 52).
  { apply Z.le_antisymm.
    - apply (multiple_le n k Hk Hkn Hn i Hi1); [nia|lia|]. rewrite HY. lia.
    - apply (multiple_ge n k Hk Hkn Hn i Hi1); [nia|lia|]. rewrite HY. lia. }
  rewrite HX. apply Z.div_mul. lia.
Qed.

End ExactQuotient.

Lemma nth_map_range (f : Z -> Z) (k i : Z) :
  0 <= i < k -> nth (Z.to_nat i) (map f (range k)) 0 = f i.
Proof.
  intros Hi. unfold range. rewrite map_map.
  rewrite (nth_indep _ 0 (f (Z.of_nat 0)))
    by (rewrite length_map, length_seq; lia).
  rewrite (map_nth (fun x => f (Z.of_nat x)) (seq 0 (Z.to_nat k)) 0%nat).
  rewrite seq_nth by lia. f_equal. lia.
Qed.

Lemma names_at_all (l : list string) :
  names_at l (range (Z.of_nat (List.length l))) = l.
Proof.
  unfold names_at, range. rewrite map_map, Nat2Z.id.
  apply nth_ext with (d := EmptyString) (d' := EmptyString).
  - now rewrite length_map, length_seq.
  - intros j Hj. rewrite length_map, length_seq in Hj.
    rewrite (nth_indep _ EmptyString
               (nth (Z.to_nat (Z.of_nat 0)) l EmptyString))
      by (rewrite length_map, length_seq; lia).
    rewrite (map_nth (fun x => nth (Z.to_nat (Z.of_nat x)) l EmptyString)
                     (seq 0 (List.length l)) 0%nat).
    rewrite seq_nth by lia. now rewrite Nat2Z.id.
Qed.

Section UniformSpacing.

Variable sample_positions : Z -> nat -> nat -> list nat.

#[local] Abbreviation choose := (_choose_views sample_positions).

Lemma choose_uniform_positions
      (frames : list frame) (k : Z) (indices : option (list Z))
      (names : option (list string)) (strategy : string) (seed : option Z)
      (entropy : Z) :
  0 < k < Z.of_nat (List.length frames) ->
  Z.of_nat (List.length frames) < 2 ^ 26 ->
  truthy_list names = false ->
  truthy_list indices = false ->
  String.eqb strategy "random" = false ->
  choose frames (Some k) indices names strategy seed entropy
  = Ok (names_at (catalog_names frames)
                 (map (target (Z.of_nat (List.length frames)) k) (range k))).
Proof.
  intros [Hk Hkn] Hn Hnames Hindices Hstrategy.
  rewrite choose_uniform_branch.
  - pose proof (uniform_select_spec (catalog_names frames) k Hk) as Hs.
    rewrite catalog_names_length in Hs. rewrite (Hs Hkn Hn). cbn [selected].
    now rewrite (selected_indices_targets _ _ Hk Hkn Hn).
  - unfold takes_uniform_branch. rewrite Hnames, Hindices, Hstrategy.
    destruct (Z.of_nat (List.length frames) <=? k) eqn:E; [|reflexivity].
    apply Z.leb_le in E. lia.
Qed.

(** The uniform branch picks, for each [i] below the count, the frame at
    position [i * n / k] (exact integer division) or the one just before it,
    and the one just before only where [k] divides [i * n]: the stride
    computed in floating point can fall short of an integer quotient, never
    of another. *)
Theorem uniform_positions_follow_exact_spacing
        (frames : list frame) (k : Z) (indices : option (list Z))
        (names : option (list string)) (strategy : string) (seed : option Z)
        (entropy : Z) :
  0 < k < Z.of_nat (List.length frames) ->
  Z.of_nat (List.length frames) < 2 ^ 26 ->
  truthy_list names = false ->
  truthy_list indices = false ->
  String.eqb strategy "random" = false ->
  exists positions,
    choose frames (Some k) indices names strategy seed entropy
    = Ok (names_at (catalog_names frames) positions)
    /\ List.length positions = Z.to_nat k
    /\ forall i,
        0 <= i < k ->
        i * Z.of_nat (List.length frames) / k - 1
        <= nth (Z.to_nat i) positions 0
        <= i * Z.of_nat (List.length frames) / k
        /\ ((i * Z.of_nat (List.length frames)) mod k <> 0 ->
            nth (Z.to_nat i) positions 0
            = i * Z.of_nat (List.length frames) / k).
Proof.
  intros Hk Hn Hnames Hindices Hstrategy.
  exists (map (target (Z.of_nat (List.length frames)) k) (range k)).
  split; [now apply choose_uniform_positions|].
  split; [now rewrite length_map, range_length|].
  intros i Hi. rewrite nth_map_range by assumption.
  apply target_near_quotient; lia.
Qed.

(** When the count divides the catalog size, the selector returns every
    [m]-th frame from the first on, [m] being the quotient; for a count equal
    to the catalog size that is the whole catalog. *)
Theorem count_dividing_catalog_selects_every_mth
        (frames : list frame) (k m : Z) (indices : option (list Z))
        (names : option (list string)) (strategy : string) (seed : option Z)
        (entropy : Z) :
  0 < k ->
  0 < m ->
  Z.of_nat (List.length frames) = k * m ->
  Z.of_nat (List.length frames) < 2 ^ 26 ->
  truthy_list names = false ->
  truthy_list indices = false ->
  String.eqb strategy "random" = false ->
  choose frames (Some k) indices names strategy seed entropy
  = Ok (names_at (catalog_names frames) (map (fun i => i * m) (range k))).
Proof.
  intros Hk Hm0 Hm Hn Hnames Hindices Hstrategy.
  destruct (Z_lt_le_dec k (Z.of_nat (List.length frames))) as [Hlt|Hge].
  - rewrite choose_uniform_positions by (assumption || lia).
    do 2 f_equal. apply map_ext_in. intros i Hi. apply range_In in Hi.
    now apply target_of_divisible.
  - assert (m = 1) by nia. subst m.
    assert (Hkn : k = Z.of_nat (List.length frames)) by lia.
    unfold _choose_views. rewrite Hnames, Hindices, catalog_names_length.
    destruct (Z.of_nat (List.length frames) <=? k) eqn:E;
      [|apply Z.leb_gt in E; lia].
    f_equal. rewrite Hkn, <- catalog_names_length.
    rewrite <- (names_at_all (catalog_names frames)) at 1.
    f_equal. rewrite map_ext with (g := fun i => i) by (intros; lia).
    now rewrite map_id.
Qed.

End UniformSpacing.

(** ** The command line and the experiment driver *)

Section CallerFacts.

Variable sample_positions : Z -> nat -> nat -> list nat.

(** From the command line with the uniform strategy the selector never
    raises, whatever the count given: zero selects the whole catalog, a
    negative count selects nothing. *)
Theorem command_line_uniform_selection_returns
        (args : cli_args) (base_frames : list frame) (entropy : Z) :
  String.eqb (arg_strategy args) "random" = false ->
  Z.of_nat (List.length base_frames) < 2 ^ 26 ->
  is_ok (selector_call sample_positions base_frames
                       (Some (arg_view_count args))
                       (Some (cli_selection args)) entropy)
  = true
  /\ (arg_view_count args = 0 ->
      truthy_list (arg_names args) = false ->
      truthy_list (arg_indices args) = false ->
      selector_call sample_positions base_frames (Some (arg_view_count args))
                    (Some (cli_selection args)) entropy
      = Ok (catalog_names base_frames)).
Proof.
  intros Hstrategy Hn. unfold selector_call, _choose_views.
  cbn [selection_or_default cli_selection strategy_or_default sel_strategy
       sel_names sel_indices sel_seed sel_view_count effective_view_count].
  rewrite Hstrategy. split.
  - destruct (truthy_list (arg_names args)); [reflexivity|].
    destruct (truthy_list (arg_indices args)); [reflexivity|].
    destruct (arg_view_count args =? 0) eqn:E0; [reflexivity|].
    apply Z.eqb_neq in E0. rewrite catalog_names_length.
    destruct (Z.of_nat (List.length base_frames) <=? arg_view_count args)
      eqn:Ek; [reflexivity|].
    apply Z.leb_gt in Ek.
    destruct (Z_lt_le_dec (arg_view_count args) 0) as [Hneg|Hpos].
    + now rewrite uniform_select_negative.
    + pose proof (uniform_select_spec (catalog_names base_frames)
                    (arg_view_count args) ltac:(lia)) as Hs.
      rewrite catalog_names_length in Hs. now rewrite (Hs Ek Hn).
  - intros -> Hnames Hindices. now rewrite Hnames, Hindices.
Qed.

(** Through the experiment driver a count of zero does reach the selector:
    when the selection has no count of its own, no usable names or indices
    and a strategy other than ["random"], and the training manifest has
    frames, the call raises [ZeroDivisionError] and leaves the subset
    directory empty. *)
Theorem driver_zero_count_raises
        (conf : subset_conf) (raw : dir) (before : option dir) (entropy : Z)
        (train : manifest) (first : frame) (others : list frame) :
  conf_view_count conf = Some 0 ->
  conf_selection_view_count (given_selection conf) = None ->
  truthy_list (conf_names (given_selection conf)) = false ->
  truthy_list (conf_indices (given_selection conf)) = false ->
  conf_strategy (given_selection conf) <> Some "random" ->
  dict_get raw train_name = Some (JsonFile train) ->
  get_frames train = Ok (first :: others) ->
  driver_create_subset sample_positions conf raw before entropy
  = ([], Raise ZeroDivisionError).
Proof.
  intros Hcount Hown Hnames Hindices Hstrategy Htrain Hframes.
  unfold driver_create_subset, create_view_subset.
  replace (match before with Some _ => ([] : dir) | None => [] end)
    with ([] : dir) by (destruct before; reflexivity).
  rewrite build_subset_unfold, Htrain.
  unfold _load_json. rewrite Htrain, Hframes.
  unfold selector_call, _choose_views, driver_selection.
  cbn [selection_or_default sel_names sel_indices sel_view_count sel_seed
       strategy_or_default sel_strategy].
  rewrite Hcount, Hown, Hnames, Hindices.
  cbn [effective_view_count Z.eqb sel_view_count].
  assert (Hs : String.eqb
                 match conf_strategy (given_selection conf) with
                 | Some s => s
                 | None => "uniform"
                 end "random" = false).
  { destruct (conf_strategy (given_selection conf)) as [s|]; [|reflexivity].
    destruct (String.eqb s "random") eqn:E; [|reflexivity].
    apply String.eqb_eq in E. subst s. now contradiction Hstrategy. }
  rewrite Hs. unfold catalog_names. cbn [map List.length].
  destruct (Z.of_nat (S _) <=? 0) eqn:E; [apply Z.leb_le in E; lia|].
  reflexivity.
Qed.

End CallerFacts.

(** ** Frames kept against names selected *)

Lemma filter_map_names (frames : list frame) (selected : list string) :
  map (fun fr => _normalize_frame_name (file_path fr))
      (filter (fun fr => mem_str (_normalize_frame_name (file_path fr))
                                 selected)
              frames)
  = filter (fun name => mem_str name selected) (catalog_names frames).
Proof.
  unfold catalog_names. induction frames as [|fr frames IH]; [reflexivity|].
  cbn [filter map].
  destruct (mem_str (_normalize_frame_name (file_path fr)) selected);
    cbn [map]; now rewrite IH.
Qed.

(** In a catalog whose names are pairwise distinct, the frames whose name is
    selected are as many as the distinct selected names, when these are
    names of the catalog. *)
Lemma selected_frames_count (frames : list frame) (selected : list string) :
  NoDup (catalog_names frames) ->
  incl selected (catalog_names frames) ->
  List.length
    (filter (fun fr => mem_str (_normalize_frame_name (file_path fr)) selected)
            frames)
  = List.length (keep_first selected).
Proof.
  intros Hnd Hincl.
  rewrite <- (length_map (fun fr => _normalize_frame_name (file_path fr))).
  rewrite filter_map_names.
  apply Permutation_length, NoDup_Permutation.
  - now apply NoDup_filter.
  - apply keep_first_NoDup.
  - intros x. rewrite filter_In, keep_first_In, mem_str_In. split.
    + now intros [_ H].
    + intros H. split; [now apply Hincl | assumption].
Qed.

Section TrainingCount.

Variable sample_positions : Z -> nat -> nat -> list nat.

(** When a call without a names list returns on a training manifest whose
    frame names are pairwise distinct, the training manifest of the subset
    keeps as many frames as there are distinct selected views: the count the
    summary reports for it is the number of distinct names in
    [selected_views]. *)
Theorem training_frames_match_selected_views
        (raw : dir) (before : option dir) (view_count : option Z)
        (sel : option selection) (extension : string) (full : bool)
        (entropy : Z) (d : dir) (out : summary) :
  sampler_ok sample_positions ->
  truthy_list (sel_names (selection_or_default sel)) = false ->
  NoDup (catalog_names (manifest_frames raw train_name)) ->
  create_view_subset sample_positions raw before view_count sel extension
                     full entropy
  = (d, Ok out) ->
  dict_get (files out) train_name
  = Some (Z.of_nat (List.length (keep_first (selected_views out)))).
Proof.
  intros Hsp Hnames Hnd Hrun.
  destruct (create_view_subset_ok_steps _ _ _ _ _ _ _ _ _ _ Hrun)
    as (acc & d1 & Hsel & Hloop & _ & ->).
  destruct (assemble_loop_ok _ _ _ _ _ _ _ _ Hloop) as [_ ->].
  cbn [counts].
  pose proof (fold_dict_set_distinct
                (fun name =>
                   Z.of_nat (List.length
                               (retained_of raw full (selected_views out)
                                            name)))
                (transform_files raw) [] (transform_files_NoDup raw)) as Hf.
  cbn [map app] in Hf. rewrite Hf. unfold transform_files at 1.
  cbn [map dict_get]. rewrite String.eqb_refl.
  do 2 f_equal. unfold retained_of, retained_frames.
  rewrite String.eqb_refl, andb_false_r.
  apply selected_frames_count; [assumption|].
  apply (choose_views_incl_catalog sample_positions _ _ _ _ _ _ _ _ Hsp Hnames
                                   Hsel).
Qed.

End TrainingCount.

(** ** Command lines of the external scripts *)

Lemma ascii_compare_trans_le (a b c : ascii) :
  Ascii.compare a b <> Gt -> Ascii.compare b c <> Gt ->
  Ascii.compare a c <> Gt
  /\ (Ascii.compare a c = Eq ->
      Ascii.compare a b = Eq /\ Ascii.compare b c = Eq).
Proof.
  unfold Ascii.compare.
  destruct (N.compare_spec (N_of_ascii a) (N_of_ascii b));
    destruct (N.compare_spec (N_of_ascii b) (N_of_ascii c));
    destruct (N.compare_spec (N_of_ascii a) (N_of_ascii c));
    intros Hab Hbc; try (exfalso; congruence); try (exfalso; lia);
    (split; [discriminate | intros; split; congruence]).
Qed.

Lemma string_leb_trans (a b c : string) :
  String.leb a b = true -> String.leb b c = true -> String.leb a c = true.
Proof.
  unfold String.leb.
  assert (H : String.compare a b <> Gt -> String.compare b c <> Gt ->
              String.compare a c <> Gt).
  { revert b c. induction a as [|x a IH]; intros [|y b] [|z c]; cbn;
      try congruence.
    intros H1 H2.
    assert (Hxy : Ascii.compare x y <> Gt)
      by (destruct (Ascii.compare x y); congruence).
    assert (Hyz : Ascii.compare y z <> Gt)
      by (destruct (Ascii.compare y z); congruence).
    destruct (ascii_compare_trans_le x y z Hxy Hyz) as [Hxz Heq].
    destruct (Ascii.compare x z) eqn:E; try congruence.
    destruct (Heq eq_refl) as [E1 E2]. rewrite E1 in H1. rewrite E2 in H2.
    now apply (IH b c). }
  destruct (String.compare a b), (String.compare b c), (String.compare a c);
    intros; try reflexivity; try discriminate;
    exfalso; apply H; congruence.
Qed.

Lemma insert_sorted_perm (x : string) (l : list string) :
  Permutation (x :: l) (insert_sorted x l).
Proof.
  induction l as [|y l IH]; cbn; [reflexivity|].
  destruct (String.leb x y); [reflexivity|].
  rewrite perm_swap. now constructor.
Qed.

Lemma sorted_strings_perm (l : list string) :
  Permutation l (sorted_strings l).
Proof.
  induction l as [|x l IH]; cbn; [constructor|].
  rewrite <- insert_sorted_perm. now constructor.
Qed.

Lemma insert_sorted_sorted (x : string) (l : list string) :
  leb_sorted l -> leb_sorted (insert_sorted x l).
Proof.
  unfold leb_sorted. induction 1 as [|y l Hs IH Hy]; cbn.
  - repeat constructor.
  - destruct (String.leb x y) eqn:E.
    + constructor; [now constructor|]. constructor; [assumption|].
      rewrite Forall_forall in *. intros z Hz.
      apply (string_leb_trans x y z E). now apply Hy.
    + constructor; [assumption|].
      rewrite Forall_forall in *. intros z Hz.
      apply (Permutation_in _ (Permutation_sym (insert_sorted_perm x l))) in Hz.
      destruct Hz as [<-|Hz]; [|now apply Hy].
      destruct (String.leb_total x y) as [H|H]; congruence.
Qed.

Lemma sorted_strings_sorted (l : list string) : leb_sorted (sorted_strings l).
Proof.
  induction l as [|x l IH]; cbn; [constructor|].
  now apply insert_sorted_sorted.
Qed.

(** Two sorted lists with the same elements are the same list. *)
Lemma leb_sorted_unique (l1 l2 : list string) :
  leb_sorted l1 -> leb_sorted l2 -> Permutation l1 l2 -> l1 = l2.
Proof.
  unfold leb_sorted. intros Hl1. revert l2.
  induction Hl1 as [|x l1 Hs1 IH Hx]; intros l2 H2 Hp.
  - apply Permutation_nil in Hp. now subst.
  - destruct H2 as [|y l2 Hs2 Hy].
    + apply Permutation_sym, Permutation_nil in Hp. discriminate.
    + assert (x = y).
      { rewrite Forall_forall in Hx, Hy.
        assert (Hin1 : In y (x :: l1))
          by (apply (Permutation_in _ (Permutation_sym Hp)); now left).
        assert (Hin2 : In x (y :: l2))
          by (apply (Permutation_in _ Hp); now left).
        destruct Hin1 as [|Hin1]; [assumption|].
        destruct Hin2 as [|Hin2]; [now symmetry|].
        apply String.leb_antisym; [now apply Hx | now apply Hy]. }
      subst y. f_equal. apply IH; [assumption|].
      now apply Permutation_cons_inv in Hp.
Qed.

Lemma sorted_strings_of_perm (l1 l2 : list string) :
  Permutation l1 l2 -> sorted_strings l1 = sorted_strings l2.
Proof.
  intros Hp. apply leb_sorted_unique;
    [apply sorted_strings_sorted | apply sorted_strings_sorted |].
  rewrite <- (sorted_strings_perm l1), <- (sorted_strings_perm l2).
  assumption.
Qed.

Lemma dict_get_In {V : Type} (d : list (string * V)) (key : string) (v : V) :
  NoDup (map fst d) -> In (key, v) d -> dict_get d key = Some v.
Proof.
  induction d as [|[k w] d IH]; intros Hnd Hin; [destruct Hin|].
  cbn [dict_get]. cbn [map fst] in Hnd. inversion Hnd as [|? ? Hk Hnd']; subst.
  destruct Hin as [Heq|Hin].
  - inversion Heq; subst. now rewrite String.eqb_refl.
  - destruct (String.eqb k key) eqn:E; [|now apply IH].
    apply String.eqb_eq in E. subst k. exfalso. apply Hk.
    apply in_map_iff. now exists (key, v).
Qed.

Lemma dict_get_None {V : Type} (d : list (string * V)) (key : string) :
  ~ In key (map fst d) -> dict_get d key = None.
Proof.
  induction d as [|[k w] d IH]; intros Hnot; [reflexivity|].
  cbn [dict_get]. destruct (String.eqb k key) eqn:E.
  - apply String.eqb_eq in E. subst. exfalso. apply Hnot. now left.
  - apply IH. intros H. apply Hnot. now right.
Qed.

Lemma dict_get_perm {V : Type} (d1 d2 : list (string * V)) (key : string) :
  NoDup (map fst d1) -> Permutation d1 d2 ->
  dict_get d1 key = dict_get d2 key.
Proof.
  intros Hnd Hp.
  assert (Hnd2 : NoDup (map fst d2))
    by (apply (Permutation_NoDup (Permutation_map fst Hp) Hnd)).
  destruct (dict_get d1 key) as [v|] eqn:E1.
  - symmetry. apply dict_get_In; [assumption|].
    apply (Permutation_in _ Hp).
    clear -E1. induction d1 as [|[k w] d1 IH]; [discriminate|].
    cbn [dict_get] in E1. destruct (String.eqb k key) eqn:E.
    + apply String.eqb_eq in E. inversion E1; subst. now left.
    + right. now apply IH.
  - symmetry. apply dict_get_None. intros Hin.
    apply (Permutation_in _ (Permutation_sym (Permutation_map fst Hp))) in Hin.
    apply in_map_iff in Hin. destruct Hin as [[k v] [Hk Hin]]. cbn in Hk.
    subst k. now rewrite (dict_get_In d1 key v Hnd Hin) in E1.
Qed.

(** The tokens do not depend on the order in which the dictionary holds its
    options: the keys are sorted first. *)
Theorem flatten_cli_args_ignores_insertion_order
        (arg_map1 arg_map2 : list (string * arg_value)) :
  NoDup (map fst arg_map1) ->
  Permutation arg_map1 arg_map2 ->
  _flatten_cli_args arg_map1 = _flatten_cli_args arg_map2.
Proof.
  intros Hnd Hp. unfold _flatten_cli_args.
  rewrite (sorted_strings_of_perm _ _ (Permutation_map fst Hp)).
  generalize (@nil string).
  induction (sorted_strings (map fst arg_map2)) as [|key keys IH];
    intros acc; [reflexivity|].
  cbn [fold_left]. rewrite (dict_get_perm arg_map1 arg_map2 key Hnd Hp).
  apply IH.
Qed.

Lemma dict_get_In_inv {V : Type} (d : list (string * V)) (key : string)
      (v : V) :
  dict_get d key = Some v -> In (key, v) d.
Proof.
  induction d as [|[k w] d IH]; [discriminate|].
  cbn [dict_get]. destruct (String.eqb k key) eqn:E.
  - apply String.eqb_eq in E. intros H. inversion H; subst. now left.
  - intros H. right. now apply IH.
Qed.

Lemma leb_sorted_filter (p : string -> bool) (l : list string) :
  leb_sorted l -> leb_sorted (filter p l).
Proof.
  unfold leb_sorted. induction 1 as [|x l Hs IH Hx]; cbn; [constructor|].
  destruct (p x); [|assumption].
  constructor; [assumption|].
  rewrite Forall_forall in *. intros y Hy. apply filter_In in Hy.
  now apply Hx.
Qed.

Lemma Permutation_filter (p : string -> bool) (l1 l2 : list string) :
  Permutation l1 l2 -> Permutation (filter p l1) (filter p l2).
Proof.
  induction 1 as [|x l1 l2 Hp IH|x y l|l1 l2 l3 H12 IH12 H23 IH23]; cbn.
  - constructor.
  - destruct (p x); [now constructor | assumption].
  - destruct (p x), (p y); try reflexivity. apply perm_swap.
  - now transitivity (filter p l2).
Qed.

Lemma map_fst_filter_set (arg_map : list (string * arg_value)) :
  NoDup (map fst arg_map) ->
  map fst (filter (fun kv => is_set (snd kv)) arg_map)
  = filter (fun key => match dict_get arg_map key with
                       | Some value => is_set value
                       | None => false
                       end) (map fst arg_map).
Proof.
  intros Hnd.
  assert (H : forall l, incl l arg_map ->
             map fst (filter (fun kv => is_set (snd kv)) l)
             = filter (fun key => match dict_get arg_map key with
                                  | Some value => is_set value
                                  | None => false
                                  end) (map fst l)).
  { induction l as [|[k v] l IH]; intros Hincl; [reflexivity|].
    cbn [filter map fst snd].
    rewrite (dict_get_In arg_map k v Hnd (Hincl _ (or_introl eq_refl))).
    rewrite <- IH by (intros x Hx; apply Hincl; now right).
    now destruct (is_set v). }
  apply H, incl_refl.
Qed.

Lemma NoDup_keys_filter (q : string * arg_value -> bool)
      (arg_map : list (string * arg_value)) :
  NoDup (map fst arg_map) -> NoDup (map fst (filter q arg_map)).
Proof.
  induction arg_map as [|[k v] m IH]; intros Hnd; [constructor|].
  cbn [map fst] in Hnd. inversion Hnd as [|? ? Hk Hnd']; subst.
  cbn [filter]. destruct (q (k, v)); [|now apply IH].
  cbn [map fst]. constructor; [|now apply IH].
  intros Hin. apply Hk. apply in_map_iff in Hin.
  destruct Hin as [kv [Hfst Hin]]. apply filter_In in Hin.
  apply in_map_iff. exists kv. tauto.
Qed.

Lemma dict_get_filter_kept (arg_map : list (string * arg_value))
      (key : string) (value : arg_value) :
  NoDup (map fst arg_map) ->
  dict_get arg_map key = Some value -> is_set value = true ->
  dict_get (filter (fun kv => is_set (snd kv)) arg_map) key = Some value.
Proof.
  intros Hnd Hget Hset. apply dict_get_In.
  - now apply NoDup_keys_filter.
  - apply filter_In. split; [now apply dict_get_In_inv | assumption].
Qed.

Lemma flatten_option_unset (key : string) (value : arg_value) :
  is_set value = false -> flatten_option key value = [].
Proof. destruct value as [[| [|] | | |]|]; now cbn. Qed.

(** Options left at [None] or [False] leave no trace in the command line. *)
Theorem unset_options_leave_no_tokens
        (arg_map : list (string * arg_value)) :
  NoDup (map fst arg_map) ->
  _flatten_cli_args arg_map
  = _flatten_cli_args (filter (fun kv => is_set (snd kv)) arg_map).
Proof.
  intros Hnd. unfold _flatten_cli_args.
  set (p := fun key => match dict_get arg_map key with
                       | Some value => is_set value
                       | None => false
                       end).
  assert (Hkeys : sorted_strings
                    (map fst (filter (fun kv => is_set (snd kv)) arg_map))
                  = filter p (sorted_strings (map fst arg_map))).
  { apply leb_sorted_unique.
    - apply sorted_strings_sorted.
    - apply leb_sorted_filter, sorted_strings_sorted.
    - rewrite <- sorted_strings_perm. rewrite (map_fst_filter_set _ Hnd).
      apply Permutation_filter, sorted_strings_perm. }
  rewrite Hkeys. clear Hkeys. generalize (@nil string).
  induction (sorted_strings (map fst arg_map)) as [|key keys IH];
    intros acc; [reflexivity|].
  cbn [fold_left filter]. unfold p at 1.
  destruct (dict_get arg_map key) as [value|] eqn:Hget; [|apply IH].
  destruct (is_set value) eqn:Hset.
  - cbn [fold_left].
    rewrite (dict_get_filter_kept arg_map key value Hnd Hget Hset).
    apply IH.
  - rewrite (flatten_option_unset key value Hset), app_nil_r. apply IH.
Qed.

(** ** Iteration numbers in method names *)

Lemma search_digits_skip (prefix s : string) :
  search_digits prefix = None ->
  search_digits (prefix ++ s) = search_digits s.
Proof.
  induction prefix as [|c prefix IH]; cbn; [reflexivity|].
  destruct (is_digit c); [discriminate | exact IH].
Qed.

Lemma digit_run_printed (d : Decimal.uint) (suffix : string) :
  digit_run (DecimalString.NilEmpty.string_of_uint d ++ suffix)
  = (DecimalString.NilEmpty.string_of_uint d ++ digit_run suffix)%string.
Proof.
  induction d; cbn [DecimalString.NilEmpty.string_of_uint String.append];
    try reflexivity;
    cbn [digit_run];
    match goal with
    | |- context [is_digit ?c] =>
        change (is_digit c) with true; cbv beta iota; now rewrite IHd
    end.
Qed.

Lemma search_digits_printed (d : Decimal.uint) (suffix : string) :
  DecimalString.NilEmpty.string_of_uint d <> EmptyString ->
  digit_run suffix = EmptyString ->
  search_digits (DecimalString.NilEmpty.string_of_uint d ++ suffix)
  = Some (DecimalString.NilEmpty.string_of_uint d).
Proof.
  intros Hne Hsuffix.
  pose proof (digit_run_printed d suffix) as Hrun.
  rewrite Hsuffix in Hrun.
  assert (Hnil : forall s : string, (s ++ EmptyString)%string = s)
    by (induction s; cbn; congruence).
  rewrite Hnil in Hrun.
  destruct (DecimalString.NilEmpty.string_of_uint d) as [|c rest] eqn:E;
    [congruence|].
  cbn [String.append] in *. cbn [search_digits].
  cbn [digit_run] in Hrun.
  destruct (is_digit c) eqn:Ec; [|discriminate].
  cbn [digit_run]. rewrite Ec. now rewrite Hrun.
Qed.

Lemma printed_natural (n : Z) :
  0 <= n ->
  exists d, py_str (IInt n) = DecimalString.NilEmpty.string_of_uint d
            /\ Z.of_uint d = n
            /\ DecimalString.NilEmpty.string_of_uint d <> EmptyString.
Proof.
  intros Hn. pose proof (DecimalZ.of_to n) as Hback.
  unfold py_str. destruct n as [|p|p]; [| |lia].
  - exists (Decimal.D0 Decimal.Nil). cbn.
    split; [reflexivity | split; [reflexivity | discriminate]].
  - cbn [Z.to_int] in *. exists (Pos.to_uint p).
    cbn [DecimalString.NilEmpty.string_of_int Z.of_int] in *.
    split; [reflexivity | split; [assumption|]].
    destruct (Pos.to_uint p); cbn; discriminate.
Qed.

(** A method name made of a prefix without digits, the decimal text of a
    natural number and a rest that does not begin with a digit yields that
    number. *)
Theorem extract_iteration_reads_back_printed_number
        (prefix suffix : string) (n : Z) :
  0 <= n ->
  search_digits prefix = None ->
  digit_run suffix = EmptyString ->
  (String.length (py_str (IInt n)) <= int_max_str_digits)%nat ->
  _extract_iteration (prefix ++ py_str (IInt n) ++ suffix) = Ok (Some n).
Proof.
  intros Hn Hprefix Hsuffix Hlen.
  destruct (printed_natural n Hn) as [d [Hd [Hval Hne]]].
  unfold _extract_iteration.
  rewrite (search_digits_skip _ _ Hprefix), Hd in *.
  rewrite (search_digits_printed d suffix Hne Hsuffix).
  unfold int_of_digits.
  apply Nat.leb_le in Hlen. rewrite Nat.leb_antisym in Hlen.
  apply negb_true_iff in Hlen. rewrite Hlen.
  pose proof (DecimalString.NilEmpty.usu d) as Hread.
  destruct (DecimalString.NilEmpty.string_of_uint d); [congruence|].
  now rewrite Hread, Hval.
Qed.

Lemma extract_iteration_reads_back_witness :
  _extract_iteration ("ours_" ++ py_str (IInt 30000) ++ "/test") = Ok (Some 30000).
Proof.
  apply extract_iteration_reads_back_printed_number;
    [lia | reflexivity | reflexivity | vm_compute; lia].
Defined.

(** ** Rows of the metrics table *)

Lemma rows_loop_rows (timestamp subset_label view_count : cell)
      (model_dir : string) (selected : list string)
      (results : list (string * list (string * cell))) (rows : list row) :
  rows_loop timestamp subset_label view_count model_dir selected results
  = Ok rows ->
  Forall2 (fun entry r =>
             exists iteration,
               r = result_row timestamp subset_label view_count model_dir
                              selected (fst entry) iteration (snd entry))
          results rows.
Proof.
  revert rows. induction results as [|[method metrics] rest IH];
    intros rows; cbn [rows_loop].
  - intros H. inversion H. constructor.
  - destruct (_extract_iteration method) as [iteration|]; [|discriminate].
    destruct (rows_loop timestamp subset_label view_count model_dir selected
                        rest) as [rows'|]; [|discriminate].
    intros H. inversion H; subst. constructor; [|now apply IH].
    now exists iteration.
Qed.

(** The rows built by the experiment driver carry no time: the driver puts a
    timestamp of [None] in the metadata, which takes the place of the
    clock. *)
Theorem driver_rows_carry_no_timestamp
        (results : list (string * list (string * cell)))
        (model_dir subset_label : string) (subset_meta : summary)
        (now : cell) (rows : list row) :
  _rows_from_results results model_dir
                     (driver_metadata subset_label subset_meta) now
  = Ok rows ->
  List.length rows = List.length results
  /\ Forall (fun r => dict_get r "timestamp" = Some CNone) rows.
Proof.
  unfold _rows_from_results. cbn [driver_metadata md_timestamp get_or].
  intros H. apply rows_loop_rows in H.
  induction H as [|entry r results rows [iteration ->] _ [IHlen IHall]].
  - split; constructor.
  - split; [cbn; now rewrite IHlen|]. constructor; [reflexivity | assumption].
Qed.

Lemma writerow_result_row (timestamp subset_label view_count : cell)
      (model_dir : string) (selected : list string)
      (method : string) (iteration : option Z)
      (metrics : list (string * cell)) :
  writerow METRICS_COLUMNS
           (result_row timestamp subset_label view_count model_dir selected
                       method iteration metrics)
  = Ok (map snd (result_row timestamp subset_label view_count model_dir
                            selected method iteration metrics)).
Proof. reflexivity. Qed.

Lemma write_rows_result_rows (timestamp subset_label view_count : cell)
      (model_dir : string) (selected : list string)
      (results : list (string * list (string * cell))) (rows : list row)
      (lines : table) :
  rows_loop timestamp subset_label view_count model_dir selected results
  = Ok rows ->
  write_rows lines rows = (lines ++ map (map snd) rows, Ok tt).
Proof.
  intros H. apply rows_loop_rows in H. revert lines.
  induction H as [|entry r results rows [iteration ->] _ IH]; intros lines.
  - cbn. now rewrite app_nil_r.
  - cbn [write_rows]. rewrite writerow_result_row, IH.
    cbn [map]. now rewrite <- app_assoc.
Qed.

(** The rows built from the results fit the columns of the table: the
    writer accepts every one of them, and the file receives, after its
    earlier lines (or after the header when it did not exist), the values of
    each row in the order of the columns. *)
Theorem result_rows_are_appended_in_column_order
        (results : list (string * list (string * cell)))
        (model_dir : string) (md : metadata) (now : cell)
        (rows : list row) (file : option table) :
  _rows_from_results results model_dir md now = Ok rows ->
  _append_metrics_csv file rows
  = (Some (match file with
           | Some lines => lines
           | None => [map CStr METRICS_COLUMNS]
           end ++ map (map snd) rows), Ok tt).
Proof.
  unfold _rows_from_results, _append_metrics_csv. intros H.
  now rewrite (write_rows_result_rows _ _ _ _ _ _ _ _ H).
Qed.

(** ** The copier and the names on their own *)




Lemma contains_append (c : ascii) (s t : string) :
  contains c (s ++ t) = (contains c s || contains c t)%bool.
Proof.
  induction s as [|c' s IH]; cbn; [reflexivity|].
  now rewrite IH, orb_assoc.
Qed.

Lemma split_slash_aux_no_slash (cur s : string) :
  contains slash cur = false ->
  Forall (fun part => contains slash part = false) (split_slash_aux cur s).
Proof.
  revert cur. induction s as [|c s IH]; intros cur Hcur; cbn [split_slash_aux].
  - now constructor.
  - destruct (Ascii.eqb c slash) eqn:Ec.
    + constructor; [assumption | now apply IH].
    + apply IH. rewrite contains_append. cbn. now rewrite Hcur, Ec.
Qed.

Lemma last_Forall {A : Type} (P : A -> Prop) (l : list A) (default : A) :
  Forall P l -> P default -> P (last l default).
Proof.
  induction 1 as [|x l Hx Hl IH]; intros Hd; [assumption|].
  destruct l; [assumption|]. now apply IH.
Qed.

Lemma contains_substring_prefix (c : ascii) (n : nat) (s : string) :
  contains c s = false -> contains c (substring 0 n s) = false.
Proof.
  revert n. induction s as [|c' s IH]; intros [|n] H; cbn in *;
    try reflexivity.
  apply orb_false_iff in H. destruct H as [H1 H2].
  now rewrite H1, (IH n H2).
Qed.

(** A normalised frame name has no directory part: it contains no slash. *)
Theorem normalized_names_have_no_directory (file_path : string) :
  contains slash (_normalize_frame_name file_path) = false.
Proof.
  unfold _normalize_frame_name, path_stem.
  assert (Hname : contains slash (path_name (remove_dot_slash file_path))
                  = false).
  { unfold path_name, path_parts, split_slash.
    apply (last_Forall (fun part => contains slash part = false));
      [|reflexivity].
    apply Forall_forall. intros part Hin. apply filter_In in Hin.
    destruct Hin as [Hin _].
    pose proof (split_slash_aux_no_slash EmptyString
                  (remove_dot_slash file_path) eq_refl) as Hall.
    rewrite Forall_forall in Hall. now apply Hall. }
  unfold stem_of_name.
  destruct (rfind_dot _) as [i|]; [|assumption].
  destruct (_ && _)%bool; [|assumption].
  now apply contains_substring_prefix.
Qed.

(** ** The added properties on the worked dataset *)

Lemma selector_returns_on_positive_counts_witness :
  is_ok (_choose_views first_positions example_train_frames (Some 3) None
                       None "random" (Some 7) 0)
  = true.
Proof.
  apply (selector_returns_on_positive_counts
           first_positions example_train_frames (Some 3) None None "random"
           (Some 7) 0); cbn; lia.
Defined.

Lemma summary_counts_witness :
  exists d out,
    create_view_subset first_positions example_raw None (Some 3) None ".png"
                       true 0
    = (d, Ok out)
    /\ files out
       = map (fun name =>
                (name,
                 Z.of_nat (List.length
                             (retained_of example_raw true (selected_views out)
                                          name))))
             (transform_files example_raw).
Proof.
  eexists. eexists. split; [vm_compute; reflexivity|].
  eapply (summary_counts_retained_frames
           first_positions example_raw None (Some 3) None ".png" true 0).
  vm_compute. reflexivity.
Defined.




Lemma selected_names_witness :
  In "r_3" (catalog_names example_train_frames).
Proof.
  apply (selected_names_are_catalog_names
           first_positions example_train_frames (Some 3) None None "uniform"
           None 0 ["r_0"; "r_3"; "r_6"] first_positions_ok eq_refl).
  - vm_compute. reflexivity.
  - right. left. reflexivity.
Defined.

Lemma negative_count_witness :
  _choose_views first_positions example_train_frames (Some (-1)) None None
                "uniform" None 0
  = Ok [].
Proof.
  apply (negative_count_selects_nothing
           first_positions example_train_frames (-1) None None "uniform" None
           0); [lia | reflexivity | reflexivity | reflexivity].
Defined.

Lemma uniform_spacing_witness :
  exists positions,
    _choose_views first_positions example_train_frames (Some 3) None None
                  "uniform" None 0
    = Ok (names_at (catalog_names example_train_frames) positions)
    /\ List.length positions = Z.to_nat 3
    /\ forall i,
        0 <= i < 3 ->
        i * Z.of_nat (List.length example_train_frames) / 3 - 1
        <= nth (Z.to_nat i) positions 0
        <= i * Z.of_nat (List.length example_train_frames) / 3
        /\ ((i * Z.of_nat (List.length example_train_frames)) mod 3 <> 0 ->
            nth (Z.to_nat i) positions 0
            = i * Z.of_nat (List.length example_train_frames) / 3).
Proof.
  apply (uniform_positions_follow_exact_spacing
           first_positions example_train_frames 3 None None "uniform" None 0);
    [cbn; lia | cbn; lia | reflexivity | reflexivity | reflexivity].
Defined.

Lemma every_mth_witness :
  _choose_views first_positions example_train_frames (Some 5) None None
                "uniform" None 0
  = Ok (names_at (catalog_names example_train_frames)
                 (map (fun i => i * 2) (range 5))).
Proof.
  apply (count_dividing_catalog_selects_every_mth
           first_positions example_train_frames 5 2 None None "uniform" None
           0);
    [lia | lia | reflexivity | cbn; lia | reflexivity | reflexivity
     | reflexivity].
Defined.

Lemma command_line_witness :
  is_ok (selector_call first_positions example_train_frames (Some 0)
                       (Some (cli_selection
                                (mkCli 0 None None "uniform" None ".png"
                                       false)))
                       0)
  = true
  /\ (0 = 0 ->
      truthy_list (@None (list string)) = false ->
      truthy_list (@None (list Z)) = false ->
      selector_call first_positions example_train_frames (Some 0)
                    (Some (cli_selection
                             (mkCli 0 None None "uniform" None ".png" false)))
                    0
      = Ok (catalog_names example_train_frames)).
Proof.
  apply (command_line_uniform_selection_returns
           first_positions (mkCli 0 None None "uniform" None ".png" false)
           example_train_frames 0); [reflexivity | cbn; lia].
Defined.

Lemma driver_zero_count_witness :
  driver_create_subset first_positions
                       (mkSubsetConf (Some 0) None None None)
                       example_raw (Some example_stale_subset) 0
  = ([], Raise ZeroDivisionError).
Proof.
  apply (driver_zero_count_raises
           first_positions (mkSubsetConf (Some 0) None None None) example_raw
           (Some example_stale_subset) 0 example_train
           (example_frame "./train/r_0")
           (map example_frame
                ["./train/r_1"; "./train/r_2"; "./train/r_3"; "./train/r_4";
                 "./train/r_5"; "./train/r_6"; "./train/r_7"; "./train/r_8";
                 "./train/r_9"]));
    try reflexivity.
  cbn. discriminate.
Defined.

Lemma training_frames_witness :
  exists d out,
    create_view_subset first_positions example_raw None (Some 3) None ".png"
                       true 0
    = (d, Ok out)
    /\ dict_get (files out) train_name
       = Some (Z.of_nat (List.length (keep_first (selected_views out)))).
Proof.
  eexists. eexists. split; [vm_compute; reflexivity|].
  eapply (training_frames_match_selected_views
           first_positions example_raw None (Some 3) None ".png" true 0).
  - exact first_positions_ok.
  - reflexivity.
  - replace (catalog_names (manifest_frames example_raw train_name))
      with (keep_first
              (catalog_names (manifest_frames example_raw train_name)))
      by (vm_compute; reflexivity).
    apply keep_first_NoDup.
  - vm_compute. reflexivity.
Defined.

Lemma flatten_order_witness :
  _flatten_cli_args [("iterations", One (IInt 30000));
                     ("eval", One (IBool true));
                     ("resolution", Many [IInt 2; IInt 4])]
  = _flatten_cli_args [("eval", One (IBool true));
                       ("iterations", One (IInt 30000));
                       ("resolution", Many [IInt 2; IInt 4])].
Proof.
  apply flatten_cli_args_ignores_insertion_order.
  - repeat constructor; cbn; intuition discriminate.
  - apply perm_swap.
Defined.

Lemma unset_options_witness :
  _flatten_cli_args [("iterations", One (IInt 30000));
                     ("eval", One (IBool false));
                     ("white_background", One INone)]
  = _flatten_cli_args
      (filter (fun kv => is_set (snd kv))
              [("iterations", One (IInt 30000));
               ("eval", One (IBool false));
               ("white_background", One INone)]).
Proof.
  apply unset_options_leave_no_tokens.
  repeat constructor; cbn; intuition discriminate.
Defined.

Lemma driver_rows_witness :
  exists rows,
    _rows_from_results
      [("ours_30000", [("SSIM", CFloat "0.81"); ("PSNR", CFloat "24.9");
                       ("LPIPS", CFloat "0.17")]);
       ("ours_7000", [("PSNR", CFloat "22.3")])]
      "experiments/lego/3_views"
      (driver_metadata "3_views"
                       (mkSummary 3 ["r_0"; "r_3"; "r_6"] "uniform" None None
                                  [("transforms_train.json", 3)]))
      (CFloat "1700000000.0")
    = Ok rows
    /\ List.length rows = 2%nat
    /\ Forall (fun r => dict_get r "timestamp" = Some CNone) rows.
Proof.
  eexists. split; [vm_compute; reflexivity|].
  apply (driver_rows_carry_no_timestamp
           [("ours_30000", [("SSIM", CFloat "0.81"); ("PSNR", CFloat "24.9");
                            ("LPIPS", CFloat "0.17")]);
            ("ours_7000", [("PSNR", CFloat "22.3")])]
           "experiments/lego/3_views" "3_views"
           (mkSummary 3 ["r_0"; "r_3"; "r_6"] "uniform" None None
                      [("transforms_train.json", 3)])
           (CFloat "1700000000.0")).
  vm_compute. reflexivity.
Defined.

Lemma appended_rows_witness :
  exists rows,
    _rows_from_results
      [("ours_30000", [("SSIM", CFloat "0.81"); ("PSNR", CFloat "24.9");
                       ("LPIPS", CFloat "0.17")])]
      "experiments/lego/3_views"
      (mkMetadata None (Some ["r_0"; "r_3"]) (Some (CStr "3_views"))
                  (Some (CInt 3)))
      (CFloat "1700000000.0")
    = Ok rows
    /\ _append_metrics_csv None rows
       = (Some ([map CStr METRICS_COLUMNS] ++ map (map snd) rows), Ok tt).
Proof.
  eexists. split; [vm_compute; reflexivity|].
  apply (result_rows_are_appended_in_column_order
           [("ours_30000", [("SSIM", CFloat "0.81"); ("PSNR", CFloat "24.9");
                            ("LPIPS", CFloat "0.17")])]
           "experiments/lego/3_views"
           (mkMetadata None (Some ["r_0"; "r_3"]) (Some (CStr "3_views"))
                       (Some (CInt 3)))
           (CFloat "1700000000.0") _ None).
  vm_compute. reflexivity.
Defined.

(** ** Iterations to render *)

Lemma insert_distinct_In (x z : Z) (l : list Z) :
  In z (insert_distinct x l) <-> z = x \/ In z l.
Proof.
  induction l as [|y l IH]; cbn [insert_distinct].
  - cbn. intuition.
  - destruct (x <? y); [cbn; intuition|].
    destruct (x =? y) eqn:E.
    + apply Z.eqb_eq in E. subst y. cbn. intuition.
    + cbn [In]. rewrite IH. intuition.
Qed.

Lemma sorted_set_In (z : Z) (l : list Z) : In z (sorted_set l) <-> In z l.
Proof.
  induction l as [|x l IH]; cbn [sorted_set fold_right]; [reflexivity|].
  rewrite insert_distinct_In. fold (sorted_set l). rewrite IH. cbn.
  intuition.
Qed.

(** When the configuration has no render section, the render stage raises
    [ValueError] exactly when the training arguments give no iteration;
    otherwise it renders the iterations the training arguments list, and no
    other. *)
Theorem driver_without_render_section_renders_training_iterations
        (training_iterations : int_field) :
  (render_iterations (driver_render_conf None training_iterations)
   = Raise ValueError
   <-> _normalize_list training_iterations = [])
  /\ forall iterations,
      render_iterations (driver_render_conf None training_iterations)
      = Ok iterations ->
      forall z, In z iterations <-> In z (_normalize_list training_iterations).
Proof.
  unfold render_iterations, driver_render_conf, _normalize_iterations.
  cbn [rc_iterations].
  pose proof (fun z => sorted_set_In z (_normalize_list training_iterations))
    as Hin.
  destruct (sorted_set (_normalize_list training_iterations)) as [|i its].
  - split.
    + split; [intros _|reflexivity].
      destruct (_normalize_list training_iterations) as [|z zs];
        [reflexivity|].
      now destruct (proj2 (Hin z) (or_introl eq_refl)).
    + discriminate.
  - split.
    + split; [discriminate|]. intros Hnil. rewrite Hnil in Hin.
      now destruct (proj1 (Hin i) (or_introl eq_refl)).
    + intros iterations H. inversion H; subst. exact Hin.
Qed.
